(** * Search Your Moment web client: session lifecycle and API gateway

    A shallow embedding of the client-side logic of the repository:
    - [Js]       the JavaScript values, conversions and completions the code relies on;
    - [Browser]  local storage, [fetch] and the console;
    - [Api]      [ApiClient] (lib/api.ts): authenticated REST calls;
    - [Auth]     [AuthProvider] (components/auth-provider.tsx): session state,
                 the provider subscription and the periodic token refresh;
    - [Video]    the [VideoItem] interface;
    - [Library]  [VideoLibrary] (components/video-library.tsx): delete handler
                 and status presentation;
    - [Upload]   [VideoUpload] (components/video-upload.tsx): upload handler;
    - [GlobalSearch] (components/global-search.tsx): hit conversion;
    - [Scenario] a concrete engine and the scenarios used for evaluation.
    The properties follow, one module per component.

    Strings are Rocq strings, one character per code unit.  A JavaScript object that is used as a record of
    named fields is a [gmap string _]; [FormData], whose entries are ordered
    and may repeat, is an association list.  Asynchronous functions are
    modelled by the state they leave behind once they settle; where the
    source suspends at an [await] on the identity provider, the suspended
    continuation is part of the state. *)

From Stdlib Require Import ZArith Ascii String DecimalString List Lia.
From stdpp Require Import base option gmap strings list pretty.

Set Default Proof Using "Type".
Local Open Scope string_scope.
Local Open Scope Z_scope.

(** ** Runtime built-ins

    IEEE-754 numbers, their literals and [Number.prototype.toString], and the
    two string built-ins the components call, are provided by the JavaScript
    engine, not by the repository: they are an interface. *)
Class Runtime := {
  number : Type;
  numberOfZ : Z → number;
  Number_toString : number → string;
  encodeURIComponent : string → string;
  String_trim : string → string;
}.

Module Js.

(** Values thrown by [throw new Error(msg)] and by the engine itself.  The
    text of an engine-raised error is engine-specific; nothing below
    depends on it. *)
Inductive JsError : Type :=
| Error (msg : string)
| TypeError (msg : string)
| SyntaxError (msg : string).

Definition message (e : JsError) : string :=
  match e with Error m | TypeError m | SyntaxError m => m end.

(** The outcome of evaluating an expression or awaiting a promise. *)
Inductive Completion (A : Type) : Type :=
| Return (a : A)
| Throw (e : JsError).
Arguments Return {A} a.
Arguments Throw {A} e.

Definition bindC {A B} (c : Completion A) (k : A → Completion B) : Completion B :=
  match c with Return a => k a | Throw e => Throw e end.

(** [Array.prototype.map] with a callback that may throw: left to right,
    the first exception aborts the traversal. *)
Fixpoint mapC {A B} (f : A → Completion B) (l : list A) : Completion (list B) :=
  match l with
  | [] => Return []
  | x :: r => bindC (f x) (λ y, bindC (mapC f r) (λ ys, Return (y :: ys)))
  end.

(** A value as [JSON.parse] yields it, or [undefined]; [num] is the type of
    numbers. *)
#[warnings="-register-all"] Inductive JsVal (num : Type) : Type :=
| JUndefined
| JNull
| JBool (b : bool)
| JNum (n : num)
| JStr (s : string)
| JArr (l : list (JsVal num))
| JObj (o : gmap string (JsVal num)).
Arguments JUndefined {num}.
Arguments JNull {num}.
Arguments JBool {num} b.
Arguments JNum {num} n.
Arguments JStr {num} s.
Arguments JArr {num} l.
Arguments JObj {num} o.

Section Values.
Context `{Runtime}.
Local Abbreviation JsVal := (JsVal number).

(** The abstract operation ToString, as used by template literals and by
    [encodeURIComponent].  Arrays join their elements with a comma,
    [null] and [undefined] elements printing as the empty string.  A
    plain object prints as [[object Object]] unless an own property
    shadows [toString] with data, in which case no primitive can be
    obtained. *)
Fixpoint ToString (v : JsVal) : Completion string :=
  match v with
  | JUndefined => Return "undefined"
  | JNull => Return "null"
  | JBool true => Return "true"
  | JBool false => Return "false"
  | JNum n => Return (Number_toString n)
  | JStr s => Return s
  | JArr l =>
      bindC
        ((fix elems (l : list JsVal) : Completion (list string) :=
            match l with
            | [] => Return []
            | x :: r =>
                bindC (match x with
                       | JUndefined | JNull => Return ""
                       | _ => ToString x
                       end)
                  (λ s, bindC (elems r) (λ ss, Return (s :: ss)))
            end) l)
        (λ ss, Return (String.concat "," ss))
  | JObj o =>
      match o !! "toString" with
      | Some _ => Throw (TypeError "Cannot convert object to primitive value")
      | None => Return "[object Object]"
      end
  end.

(** The method call [v.toString()]. *)
Definition toStringMethod (v : JsVal) : Completion string :=
  match v with
  | JUndefined | JNull =>
      Throw (TypeError "Cannot read properties of undefined (reading 'toString')")
  | JObj o =>
      match o !! "toString" with
      | Some _ => Throw (TypeError "toString is not a function")
      | None => Return "[object Object]"
      end
  | _ => ToString v
  end.

(** Reading a data field [v.k] of a value obtained from JSON, for field
    names that no prototype defines. *)
Definition getField (v : JsVal) (k : string) : Completion JsVal :=
  match v with
  | JUndefined | JNull =>
      Throw (TypeError ("Cannot read properties of undefined (reading '" +:+ k +:+ "')"))
  | JObj o => Return (default JUndefined (o !! k))
  | _ => Return JUndefined
  end.

(** Own enumerable properties copied by object spread [{...v}]: the fields
    of an object, the elements of an array and the characters of a string
    under their indices, nothing for the other primitives. *)
Definition spread (v : JsVal) : gmap string JsVal :=
  match v with
  | JObj o => o
  | JArr l => list_to_map (imap (λ i x, (pretty i, x)) l)
  | JStr s =>
      list_to_map
        (imap (λ i c, (pretty i, JStr (String c EmptyString)))
              (list_ascii_of_string s))
  | _ => ∅
  end.


End Values.

End Js.

(** ** The browser as seen by the client: local storage, the requests issued
    through [fetch], and the console. *)
Module Browser.
Import Js.

Section Browser.
Context {num : Type}.
Local Abbreviation JsVal := (JsVal num).

Record File := { fileName : string; fileContent : string }.

Inductive FormValue : Type :=
| FormFile (f : File)
| FormString (s : string).

Inductive HttpMethod := GET | POST | DELETE.

(** A request body: none, the text produced by [JSON.stringify] on a
    value (kept as that value), or a [FormData]. *)
Inductive Body : Type :=
| NoBody
| JsonBody (v : JsVal)
| FormBody (entries : list (string * FormValue)).

Record Request := {
  url : string;
  method : HttpMethod;
  headers : gmap string string;
  body : Body;
}.

(** An HTTP response: [text] is what [response.text()] resolves to and
    [json] what [response.json()] settles to. *)
Record Response := {
  status : Z;
  text : string;
  json : Completion JsVal;
}.

(** [response.ok] *)
Definition ok (r : Response) : bool :=
  (200 <=? status r) && (status r <=? 299).

(** What a [fetch] settles to: a response of any status, or a rejection
    when no response was obtained. *)
Inductive FetchOutcome : Type :=
| Responded (r : Response)
| Rejected (e : JsError).

Definition Server := Request → FetchOutcome.

Inductive ConsoleEntry : Type :=
| ConsoleLog (msg : string)
| ConsoleError (msg : string) (e : JsError).

Record World := {
  localStorage : gmap string string;
  requests : list Request;
  console : list ConsoleEntry;
}.

Definition setLocalStorage (ls : gmap string string) (w : World) : World :=
  {| localStorage := ls; requests := requests w; console := console w |}.

Definition setItem (k v : string) (w : World) : World :=
  setLocalStorage (<[k := v]> (localStorage w)) w.

Definition removeItem (k : string) (w : World) : World :=
  setLocalStorage (delete k (localStorage w)) w.

Definition consoleAdd (e : ConsoleEntry) (w : World) : World :=
  {| localStorage := localStorage w; requests := requests w;
     console := console w ++ [e] |}.

(** Programs that read and write the world and may throw. *)
Definition Prog (A : Type) : Type := World → Completion A * World.

Definition ret {A} (a : A) : Prog A := λ w, (Return a, w).
Definition throw {A} (e : JsError) : Prog A := λ w, (Throw e, w).
Definition bind {A B} (p : Prog A) (k : A → Prog B) : Prog B :=
  λ w, match p w with
       | (Return a, w') => k a w'
       | (Throw e, w') => (Throw e, w')
       end.
Definition lift {A} (c : Completion A) : Prog A := λ w, (c, w).

(** [localStorage.getItem(k)]; [None] is [null]. *)
Definition getItem (k : string) : Prog (option string) :=
  λ w, (Return (localStorage w !! k), w).

(** The world after one more request has left the browser. *)
Definition sent (req : Request) (w : World) : World :=
  {| localStorage := localStorage w;
     requests := requests w ++ [req];
     console := console w |}.

(** [await fetch(...)]: the request leaves the browser, then settles. *)
Definition fetch (srv : Server) (req : Request) : Prog Response :=
  λ w,
    match srv req with
    | Responded r => (Return r, sent req w)
    | Rejected e => (Throw e, sent req w)
    end.

End Browser.
Arguments Body : clear implicits.
Arguments Request : clear implicits.
Arguments Response : clear implicits.
Arguments FetchOutcome : clear implicits.
Arguments Server : clear implicits.
Arguments World : clear implicits.
Arguments Prog : clear implicits.

End Browser.

Declare Scope prog_scope.
Delimit Scope prog_scope with prog.
Notation "'let*' x := p 'in' k" := (Browser.bind p (λ x, k))
  (at level 10, x name, p at level 100, k at level 200) : prog_scope.

(** ** [ApiClient] (lib/api.ts) *)
Module Api.
Import Js Browser.
Local Open Scope prog_scope.

Section ApiClient.
Context `{Runtime}.
Local Abbreviation JsVal := (JsVal number).
Local Abbreviation Body := (Body number).
Local Abbreviation Request := (Request number).
Local Abbreviation Response := (Response number).
Local Abbreviation Server := (Server number).
Local Abbreviation World := (World number).
Local Abbreviation Prog := (Prog number).
(** [process.env.NEXT_PUBLIC_API_URL] *)
Variable NEXT_PUBLIC_API_URL : option string.
Variable srv : Server.

Definition API_BASE_URL : string :=
  match NEXT_PUBLIC_API_URL with
  | Some u => if decide (u = "") then "http://localhost:8000" else u
  | None => "http://localhost:8000"
  end.

Definition noToken : JsError := Error "No authentication token found".

Definition getAuthHeaders : Prog (gmap string string) :=
  let* token := getItem "firebase_token" in
  match token with
  | None => throw noToken
  | Some t =>
      if decide (t = "") then throw noToken
      else ret {[ "Authorization" := "Bearer " +:+ t;
                  "Content-Type" := "application/json" ]}
  end.

Definition getAuthHeadersForFormData : Prog (gmap string string) :=
  let* token := getItem "firebase_token" in
  match token with
  | None => throw noToken
  | Some t =>
      if decide (t = "") then throw noToken
      else ret {[ "Authorization" := "Bearer " +:+ t ]}
  end.

Definition uploadVideo (file : File) (title : string) : Prog JsVal :=
  let formData := [("file", FormFile file); ("title", FormString title)] in
  let* headers := getAuthHeadersForFormData in
  let* response := fetch srv {| url := API_BASE_URL +:+ "/api/videos/upload";
                          method := POST; headers := headers;
                          body := FormBody formData |} in
  if negb (ok response) then
    let errorText := text response in
    throw (Error ("Upload failed: " +:+ pretty (status response) +:+ " - " +:+ errorText))
  else lift (json response).

(** The object literal of [getUserVideos] and [getVideo]:
    [{...video, indexingStatus: video.indexing_status, createdAt:
    video.created_at, minioPath: video.minio_path, thumbnail:
    video.thumbnail}]. *)
Definition toCamelCase (video : JsVal) : Completion JsVal :=
  bindC (getField video "indexing_status") (λ indexing_status,
  bindC (getField video "created_at") (λ created_at,
  bindC (getField video "minio_path") (λ minio_path,
  bindC (getField video "thumbnail") (λ thumbnail,
  Return (JObj (<["thumbnail" := thumbnail]>
               (<["minioPath" := minio_path]>
               (<["createdAt" := created_at]>
               (<["indexingStatus" := indexing_status]>
               (spread video)))))))))).

(** [videos.map(...)]: only an array has a [map] method. *)
Definition mapVideos (videos : JsVal) : Completion JsVal :=
  match videos with
  | JArr l => bindC (mapC toCamelCase l) (λ l', Return (JArr l'))
  | _ => Throw (TypeError "videos.map is not a function")
  end.

Definition getUserVideos : Prog JsVal :=
  let* headers := getAuthHeaders in
  let* response := fetch srv {| url := API_BASE_URL +:+ "/api/videos";
                          method := GET; headers := headers; body := NoBody |} in
  if negb (ok response) then
    let errorText := text response in
    throw (Error ("Failed to fetch videos: " +:+ pretty (status response) +:+ " - " +:+ errorText))
  else let* videos := lift (json response) in lift (mapVideos videos).

Definition getVideo (videoId : string) : Prog JsVal :=
  let* headers := getAuthHeaders in
  let* response := fetch srv {| url := API_BASE_URL +:+ "/api/videos/" +:+ videoId;
                          method := GET; headers := headers; body := NoBody |} in
  if negb (ok response) then
    let errorText := text response in
    throw (Error ("Failed to fetch video: " +:+ pretty (status response) +:+ " - " +:+ errorText))
  else let* video := lift (json response) in lift (toCamelCase video).

(** [JSON.stringify({ query, limit })] *)
Definition searchBody (query : string) (limit : number) : Body :=
  JsonBody (JObj {[ "query" := JStr query; "limit" := JNum limit ]}).

Definition globalSearch (query : string) (limit : option number) : Prog JsVal :=
  let limit := default (numberOfZ 5) limit in
  let* headers := getAuthHeaders in
  let* response := fetch srv {| url := API_BASE_URL +:+ "/api/search/global";
                          method := POST; headers := headers;
                          body := searchBody query limit |} in
  if negb (ok response) then
    let errorText := text response in
    throw (Error ("Search failed: " +:+ pretty (status response) +:+ " - " +:+ errorText))
  else lift (json response).

Definition searchInVideo (videoId query : string) (limit : option number)
  : Prog JsVal :=
  let limit := default (numberOfZ 10) limit in
  let* headers := getAuthHeaders in
  let* response := fetch srv {| url := API_BASE_URL +:+ "/api/search/video/" +:+ videoId;
                          method := POST; headers := headers;
                          body := searchBody query limit |} in
  if negb (ok response) then
    let errorText := text response in
    throw (Error ("Search failed: " +:+ pretty (status response) +:+ " - " +:+ errorText))
  else lift (json response).

Definition getVideoStreamUrl (videoId : string) : Prog JsVal :=
  let* headers := getAuthHeaders in
  let* response := fetch srv {| url := API_BASE_URL +:+ "/api/videos/" +:+ videoId +:+ "/stream";
                          method := GET; headers := headers; body := NoBody |} in
  if negb (ok response) then
    let errorText := text response in
    throw (Error ("Failed to get stream URL: " +:+ pretty (status response) +:+ " - " +:+ errorText))
  else lift (json response).

Definition deleteVideo (videoId : string) : Prog JsVal :=
  let* headers := getAuthHeaders in
  let* response := fetch srv {| url := API_BASE_URL +:+ "/api/videos/" +:+ videoId;
                          method := DELETE; headers := headers; body := NoBody |} in
  if negb (ok response) then
    let errorText := text response in
    throw (Error ("Failed to delete video: " +:+ pretty (status response) +:+ " - " +:+ errorText))
  else ret (JBool true).

Definition testAuth : Prog JsVal :=
  let* headers := getAuthHeaders in
  let* response := fetch srv {| url := API_BASE_URL +:+ "/health";
                          method := GET; headers := headers; body := NoBody |} in
  if negb (ok response) then
    let errorText := text response in
    throw (Error ("Auth test failed: " +:+ pretty (status response) +:+ " - " +:+ errorText))
  else lift (json response).

(** *** Vocabulary of the properties *)

(** The stored credential, when it counts as one ([!token] is false). *)
Definition credential (w : World) : option string :=
  match localStorage w !! "firebase_token" with
  | Some t => if decide (t = "") then None else Some t
  | None => None
  end.

(** The error every method builds for a response that is not ok:
    [new Error(`<what>: ${response.status} - ${errorText}`)]. *)
Definition httpError (what : string) (r : Response) : JsError :=
  Error (what +:+ ": " +:+ pretty (status r) +:+ " - " +:+ text r).

(** The request [getUserVideos] is expected to send. *)
Definition listRequest (t : string) : Request :=
  {| url := API_BASE_URL +:+ "/api/videos"; method := GET;
     headers := {[ "Authorization" := "Bearer " +:+ t;
                   "Content-Type" := "application/json" ]};
     body := NoBody |}.

(** [o.k] for an object [o]. *)
Definition field (o : gmap string JsVal) (k : string) : JsVal :=
  default JUndefined (o !! k).

(** How the object built for a video relates to the server's object: the
    four assigned keys hold the values read from it, every other key is
    copied by the spread. *)
Definition camelCased (o o' : gmap string JsVal) : Prop :=
  o' !! "indexingStatus" = Some (field o "indexing_status") ∧
  o' !! "createdAt" = Some (field o "created_at") ∧
  o' !! "minioPath" = Some (field o "minio_path") ∧
  o' !! "thumbnail" = Some (field o "thumbnail") ∧
  ∀ k, k ∉ ["indexingStatus"; "createdAt"; "minioPath"; "thumbnail"] →
       o' !! k = o !! k.

(** A call of one of the client's methods with its arguments. *)
Inductive Call : Type :=
| CallUploadVideo (file : File) (title : string)
| CallGetUserVideos
| CallGetVideo (videoId : string)
| CallGlobalSearch (query : string) (limit : option number)
| CallSearchInVideo (videoId query : string) (limit : option number)
| CallGetVideoStreamUrl (videoId : string)
| CallDeleteVideo (videoId : string)
| CallTestAuth.

Definition perform (c : Call) : Prog JsVal :=
  match c with
  | CallUploadVideo file title => uploadVideo file title
  | CallGetUserVideos => getUserVideos
  | CallGetVideo videoId => getVideo videoId
  | CallGlobalSearch query limit => globalSearch query limit
  | CallSearchInVideo videoId query limit => searchInVideo videoId query limit
  | CallGetVideoStreamUrl videoId => getVideoStreamUrl videoId
  | CallDeleteVideo videoId => deleteVideo videoId
  | CallTestAuth => testAuth
  end.

(** The text each method puts in front of [": <status> - <body>"]. *)
Definition failurePrefix (c : Call) : string :=
  match c with
  | CallUploadVideo _ _ => "Upload failed"
  | CallGetUserVideos => "Failed to fetch videos"
  | CallGetVideo _ => "Failed to fetch video"
  | CallGlobalSearch _ _ | CallSearchInVideo _ _ _ => "Search failed"
  | CallGetVideoStreamUrl _ => "Failed to get stream URL"
  | CallDeleteVideo _ => "Failed to delete video"
  | CallTestAuth => "Auth test failed"
  end.

(** The headers a method attaches: every method but the upload announces
    JSON. *)
Definition headersOf (c : Call) (t : string) : gmap string string :=
  match c with
  | CallUploadVideo _ _ => {[ "Authorization" := "Bearer " +:+ t ]}
  | _ => {[ "Authorization" := "Bearer " +:+ t;
            "Content-Type" := "application/json" ]}
  end.

End ApiClient.

End Api.


(** ** [AuthProvider] (components/auth-provider.tsx)

    The identity provider (Firebase) is an external collaborator.  It acts on
    the component in three ways only: it invokes the callback subscribed with
    [onAuthStateChanged], it settles the promises returned by
    [user.getIdToken], and it settles [signOut(auth)].  Each of these is an
    input of the model. *)
Module Auth.
Import Js Browser.

Section AuthProvider.
Context {num : Type}.
Local Abbreviation World := (World num).

(** The provider's [User] object, as far as the client looks at it. *)
Record User := { uid : string; email : string }.

#[global] Instance User_eq_dec : EqDecision User.
Proof. solve_decision. Defined.

(** The three [useState] cells. *)
Record Session := {
  user : option User;
  token : option string;
  loading : bool;
}.

(** The component together with what it has in flight: the callbacks
    suspended at [await user.getIdToken()], each with the user it was invoked
    for, and the number of [refreshToken] runs suspended at
    [await user.getIdToken(true)]. *)
Record State := {
  session : Session;
  world : World;
  awaitingIdToken : list User;
  refreshing : nat;
}.

(** State on mount; local storage is whatever an earlier visit left. *)
Definition initial (ls : gmap string string) : State :=
  {| session := {| user := None; token := None; loading := true |};
     world := {| localStorage := ls; requests := []; console := [] |};
     awaitingIdToken := [];
     refreshing := 0 |}.

(** The [else] branch of the subscribed callback, followed by
    [setLoading(false)]. *)
Definition onSignedOut (s : State) : State :=
  {| session := {| user := None; token := None; loading := false |};
     world := consoleAdd (ConsoleLog "User signed out, token cleared")
                (removeItem "firebase_token" (world s));
     awaitingIdToken := awaitingIdToken s;
     refreshing := refreshing s |}.

(** The rest of the callback for a present user, once [getIdToken()] has
    settled with [r]: the [try] body or the [catch] body, then
    [setLoading(false)]. *)
Definition onIdToken (u : User) (r : Completion string) (s : State) : State :=
  match r with
  | Return idToken =>
      {| session := {| user := Some u; token := Some idToken; loading := false |};
         world := consoleAdd (ConsoleLog "User authenticated, token set")
                    (setItem "firebase_token" idToken (world s));
         awaitingIdToken := awaitingIdToken s;
         refreshing := refreshing s |}
  | Throw error =>
      {| session := {| user := None; token := None; loading := false |};
         world := removeItem "firebase_token"
                    (consoleAdd (ConsoleError "Error getting ID token:" error) (world s));
         awaitingIdToken := awaitingIdToken s;
         refreshing := refreshing s |}
  end.

(** The rest of [refreshToken] once [getIdToken(true)] has settled. *)
Definition onRefreshed (r : Completion string) (s : State) : State :=
  match r with
  | Return idToken =>
      {| session := {| user := user (session s); token := Some idToken;
                       loading := loading (session s) |};
         world := setItem "firebase_token" idToken (world s);
         awaitingIdToken := awaitingIdToken s;
         refreshing := refreshing s |}
  | Throw error =>
      {| session := session s;
         world := consoleAdd (ConsoleError "Error refreshing token:" error) (world s);
         awaitingIdToken := awaitingIdToken s;
         refreshing := refreshing s |}
  end.

(** Removes the first occurrence of [u]. *)
Fixpoint resume (u : User) (l : list User) : list User :=
  match l with
  | [] => []
  | v :: r => if decide (u = v) then r else v :: resume u r
  end.

Inductive Event : Type :=
| AuthStateChanged (u : option User)
    (* the provider invokes the subscribed callback *)
| IdTokenSettled (u : User) (r : Completion string)
    (* [getIdToken()] of a suspended callback settles *)
| RefreshTimerFired
    (* the 50-minute interval invokes [refreshToken] *)
| RefreshSettled (r : Completion string).
    (* [getIdToken(true)] of a suspended [refreshToken] settles *)

(** One turn of the event loop; [None] when the event cannot occur in [s].
    The interval exists exactly while [user] is set (the effect depends on
    [user] and its cleanup clears the interval); clearing it does not cancel
    a [refreshToken] that is already suspended. *)
Definition step (e : Event) (s : State) : option State :=
  match e with
  | AuthStateChanged None => Some (onSignedOut s)
  | AuthStateChanged (Some u) =>
      Some {| session := session s; world := world s;
              awaitingIdToken := awaitingIdToken s ++ [u];
              refreshing := refreshing s |}
  | IdTokenSettled u r =>
      if decide (u ∈ awaitingIdToken s) then
        Some (onIdToken u r
                {| session := session s; world := world s;
                   awaitingIdToken := resume u (awaitingIdToken s);
                   refreshing := refreshing s |})
      else None
  | RefreshTimerFired =>
      match user (session s) with
      | Some _ =>
          Some {| session := session s; world := world s;
                  awaitingIdToken := awaitingIdToken s;
                  refreshing := S (refreshing s) |}
      | None => None
      end
  | RefreshSettled r =>
      match refreshing s with
      | S n =>
          Some (onRefreshed r
                  {| session := session s; world := world s;
                     awaitingIdToken := awaitingIdToken s;
                     refreshing := n |})
      | O => None
      end
  end.

Fixpoint run (evs : list Event) (s : State) : option State :=
  match evs with
  | [] => Some s
  | e :: rest =>
      match step e s with
      | Some s' => run rest s'
      | None => None
      end
  end.

(** A renewal is stale when it settles after the user it was started for
    has been signed out. *)
Definition stale (e : Event) (s : State) : bool :=
  match e, user (session s) with
  | RefreshSettled _, None => true
  | _, _ => false
  end.

Fixpoint noStaleRenewal (evs : list Event) (s : State) : bool :=
  match evs with
  | [] => true
  | e :: rest =>
      negb (stale e s) &&
      match step e s with
      | Some s' => noStaleRenewal rest s'
      | None => true
      end
  end.

(** What [signOut(auth)] settles to.  On success the provider has reported
    the sign-out to the subscribed callback before the promise resolves; on
    failure it reports nothing. *)
Inductive SignOutOutcome : Type :=
| SignOutResolved
| SignOutRejected (e : JsError).

(** [logout]: [await signOut(auth)] and nothing else. *)
Definition logout (o : SignOutOutcome) (s : State) : Completion () * State :=
  match o with
  | SignOutResolved => (Return (), onSignedOut s)
  | SignOutRejected e => (Throw e, s)
  end.

(** Identity and credential both present or both absent. *)
Definition paired (ss : Session) : Prop :=
  user ss = None ↔ token ss = None.

(** Nothing of the session is left: no user, no token, nothing persisted. *)
Definition cleared (s : State) : Prop :=
  user (session s) = None ∧ token (session s) = None ∧
  localStorage (world s) !! "firebase_token" = None.

(** Events at which a run of the subscribed callback finishes. *)
Definition completesCallback (e : Event) : bool :=
  match e with
  | AuthStateChanged None | IdTokenSettled _ _ => true
  | _ => false
  end.

(** The weaker pairing that survives every interleaving. *)
Definition userHasToken (ss : Session) : Prop :=
  is_Some (user ss) → is_Some (token ss).

End AuthProvider.
Arguments State : clear implicits.

End Auth.


(** ** The [VideoItem] interface shared by the components *)
Module Video.

Inductive IndexingStatus := PENDING | INDEXING | COMPLETED | FAILED.

(** The string literal each member of the union type stands for. *)
Definition statusName (s : IndexingStatus) : string :=
  match s with
  | PENDING => "PENDING"
  | INDEXING => "INDEXING"
  | COMPLETED => "COMPLETED"
  | FAILED => "FAILED"
  end.

Record VideoItem := {
  id : string;
  title : string;
  thumbnail : string;
  duration : string;
  indexingStatus : IndexingStatus;
  createdAt : string;
  minioPath : string;
}.

(** [Omit<VideoItem, "id">], the argument of [onUpload]. *)
Record NewVideo := {
  newTitle : string;
  newThumbnail : string;
  newDuration : string;
  newIndexingStatus : IndexingStatus;
  newCreatedAt : string;
  newMinioPath : string;
}.

(** [s.split("T")[0]]: the part of [s] before its first ["T"]. *)
Fixpoint beforeT (s : string) : string :=
  match s with
  | EmptyString => EmptyString
  | String c r => if Ascii.eqb c "T"%char then EmptyString else String c (beforeT r)
  end.

End Video.

(** ** [VideoLibrary] (components/video-library.tsx) *)
Module Library.
Import Js Browser Video.

Section VideoLibrary.
Context `{Runtime}.
Local Abbreviation JsVal := (JsVal number).
Local Abbreviation Body := (Body number).
Local Abbreviation Request := (Request number).
Local Abbreviation Response := (Response number).
Local Abbreviation Server := (Server number).
Local Abbreviation World := (World number).
Local Abbreviation Prog := (Prog number).
Variable NEXT_PUBLIC_API_URL : option string.
Variable srv : Server.

Record State := {
  videos : list VideoItem;
  loading : bool;
  searchResults : list VideoItem;
  isSearching : bool;
  error : string;
  deletingId : option string;
  deleteError : string;
}.

Definition setVideos (f : list VideoItem → list VideoItem) (c : State) : State :=
  {| videos := f (videos c); loading := loading c;
     searchResults := searchResults c; isSearching := isSearching c;
     error := error c; deletingId := deletingId c; deleteError := deleteError c |}.

Definition setDeletingId (d : option string) (c : State) : State :=
  {| videos := videos c; loading := loading c;
     searchResults := searchResults c; isSearching := isSearching c;
     error := error c; deletingId := d; deleteError := deleteError c |}.

Definition setDeleteError (e : string) (c : State) : State :=
  {| videos := videos c; loading := loading c;
     searchResults := searchResults c; isSearching := isSearching c;
     error := error c; deletingId := deletingId c; deleteError := e |}.

(** [handleVideoUpload]; [now] is what [Date.now()] returns. *)
Definition handleVideoUpload (now : number) (newVideo : NewVideo) (c : State) : State :=
  let videoWithId :=
    {| id := Number_toString now;
       title := newTitle newVideo;
       thumbnail := newThumbnail newVideo;
       duration := newDuration newVideo;
       indexingStatus := newIndexingStatus newVideo;
       createdAt := newCreatedAt newVideo;
       minioPath := newMinioPath newVideo |} in
  setVideos (λ prev, videoWithId :: prev) c.

(** [err.message || "Failed to delete video."] *)
Definition deleteMessage (err : JsError) : string :=
  if decide (message err = "") then "Failed to delete video." else message err.

(** [handleDelete]: [try { await deleteVideo; filter } catch { setDeleteError }
    finally { setDeletingId(null) }]. *)
Definition handleDelete (videoId : string) (c : State) (w : World) : State * World :=
  let w := consoleAdd (ConsoleLog ("Deleting video: " +:+ videoId)) w in
  let c := setDeleteError "" (setDeletingId (Some videoId) c) in
  let '(r, w) := Api.deleteVideo NEXT_PUBLIC_API_URL srv videoId w in
  let c :=
    match r with
    | Return _ =>
        setVideos (λ prev, filter (λ v, id v ≠ videoId) prev) c
    | Throw err => setDeleteError (deleteMessage err) c
    end in
  (setDeletingId None c, w).

(** The request [deleteVideo] is expected to send. *)
Definition deleteRequest (t videoId : string) : Request :=
  {| url := Api.API_BASE_URL NEXT_PUBLIC_API_URL +:+ "/api/videos/" +:+ videoId; method := DELETE;
     headers := {[ "Authorization" := "Bearer " +:+ t;
                   "Content-Type" := "application/json" ]};
     body := NoBody |}.

(** What the status helpers return as JSX: a lucide icon with its classes. *)
Inductive IconKind := CheckCircle | Clock | AlertCircle.
Record Icon := { icon : IconKind; className : string }.

(** The three [switch] statements have no [default]: a value outside the
    four cases falls through and the function returns [undefined] ([None]). *)
Definition getStatusIcon (status : string) : option Icon :=
  if String.eqb status "COMPLETED" then
    Some {| icon := CheckCircle; className := "h-4 w-4 text-green-600" |}
  else if String.eqb status "INDEXING" then
    Some {| icon := Clock; className := "h-4 w-4 text-yellow-600 animate-pulse" |}
  else if String.eqb status "PENDING" then
    Some {| icon := Clock; className := "h-4 w-4 text-gray-600" |}
  else if String.eqb status "FAILED" then
    Some {| icon := AlertCircle; className := "h-4 w-4 text-red-600" |}
  else None.

Definition getStatusText (status : string) : option string :=
  if String.eqb status "COMPLETED" then Some "Ready"
  else if String.eqb status "INDEXING" then Some "Processing..."
  else if String.eqb status "PENDING" then Some "Queued"
  else if String.eqb status "FAILED" then Some "Failed"
  else None.

Definition getStatusVariant (status : string) : option string :=
  if String.eqb status "COMPLETED" then Some "default"
  else if String.eqb status "INDEXING" then Some "secondary"
  else if String.eqb status "PENDING" then Some "outline"
  else if String.eqb status "FAILED" then Some "destructive"
  else None.

(** The badge rendered for a video of the grid. *)
Record Badge := { badgeVariant : string; badgeIcon : Icon; badgeLabel : string }.

Definition statusBadge (v : VideoItem) : option Badge :=
  let status := statusName (indexingStatus v) in
  match getStatusVariant status, getStatusIcon status, getStatusText status with
  | Some variant, Some i, Some label =>
      Some {| badgeVariant := variant; badgeIcon := i; badgeLabel := label |}
  | _, _, _ => None
  end.

End VideoLibrary.

End Library.

(** ** [VideoUpload] (components/video-upload.tsx) *)
Module Upload.
Import Js Browser Video.
Local Open Scope prog_scope.

Section VideoUpload.
Context `{Runtime}.
Local Abbreviation JsVal := (JsVal number).
Local Abbreviation Body := (Body number).
Local Abbreviation Request := (Request number).
Local Abbreviation Response := (Response number).
Local Abbreviation Server := (Server number).
Local Abbreviation World := (World number).
Local Abbreviation Prog := (Prog number).
Variable NEXT_PUBLIC_API_URL : option string.
Variable srv : Server.

Record State := {
  file : option File;
  title : string;
  uploading : bool;
  uploadProgress : Z;
}.

(** The object literal [newVideo]; [isoNow] is [new Date().toISOString()]. *)
Definition newVideo (isoNow : string) (title : string) (result : JsVal)
  : Completion NewVideo :=
  bindC (getField result "video_id") (λ video_id,
  bindC (ToString video_id) (λ video_id,
  Return {| newTitle := title;
            newThumbnail := "/placeholder.svg?height=200&width=300&query="
                            +:+ encodeURIComponent title +:+ " video thumbnail";
            newDuration := "0:00";
            newIndexingStatus := PENDING;
            newCreatedAt := beforeT isoNow;
            newMinioPath := "/videos/" +:+ video_id |})).

(** [handleUpload].  The second component lists the calls of [onUpload]. *)
Definition handleUpload (isoNow : string) (c : State) (w : World)
  : State * list NewVideo * World :=
  match file c with
  | None => (c, [], w)
  | Some f =>
      if decide (title c = "") then (c, [], w)
      else
        let '(r, w) :=
          (let* result := Api.uploadVideo NEXT_PUBLIC_API_URL srv f (title c) in
           lift (newVideo isoNow (title c) result)) w in
        match r with
        | Return v =>
            ({| file := None; title := ""; uploading := false; uploadProgress := 0 |},
             [v], w)
        | Throw error =>
            ({| file := Some f; title := title c; uploading := false;
                uploadProgress := 0 |},
             [], consoleAdd (ConsoleError "Upload failed:" error) w)
        end
  end.

(** The request [uploadVideo] is expected to send. *)
Definition uploadRequest (t : string) (f : File) (title : string) : Request :=
  {| url := Api.API_BASE_URL NEXT_PUBLIC_API_URL +:+ "/api/videos/upload";
     method := POST;
     headers := {[ "Authorization" := "Bearer " +:+ t ]};
     body := FormBody [("file", FormFile f); ("title", FormString title)] |}.

End VideoUpload.

End Upload.

(** ** [GlobalSearch] (components/global-search.tsx) *)
Module GlobalSearch.
Import Js Browser Video.
Local Open Scope prog_scope.

Section Data.
Context {num : Type}.

(** [SearchResult extends VideoItem]; the fields copied from a hit hold
    whatever the server sent. *)
Record SearchResult := {
  id : string;
  title : JsVal num;
  thumbnail : string;
  duration : string;
  indexingStatus : IndexingStatus;
  createdAt : string;
  minioPath : string;
  relevanceScore : JsVal num;
  matchedTimestamp : JsVal num;
}.

Record State := {
  query : string;
  isSearching : bool;
  searchResults : list SearchResult;
}.

(** What the component told its parent: the arguments of the calls of
    [onSearch] and of [onSearchStateChange], in order. *)
Record Calls := {
  onSearch : list (list SearchResult);
  onSearchStateChange : list bool;
}.

End Data.
Arguments SearchResult : clear implicits.
Arguments State : clear implicits.
Arguments Calls : clear implicits.

Section Handlers.
Context `{Runtime}.
Local Abbreviation JsVal := (JsVal number).
Local Abbreviation Body := (Body number).
Local Abbreviation Request := (Request number).
Local Abbreviation Response := (Response number).
Local Abbreviation Server := (Server number).
Local Abbreviation World := (World number).
Local Abbreviation Prog := (Prog number).
Local Abbreviation SearchResult := (SearchResult number).
Local Abbreviation State := (State number).
Local Abbreviation Calls := (Calls number).
Variable NEXT_PUBLIC_API_URL : option string.
Variable srv : Server.

(** The callback of [results.map]; [isoNow] is [new Date().toISOString()]. *)
Definition toSearchResult (isoNow : string) (result : JsVal) : Completion SearchResult :=
  bindC (getField result "video_id") (λ video_id,
  bindC (toStringMethod video_id) (λ id,
  bindC (getField result "title") (λ title,
  bindC (ToString title) (λ titleText,
  bindC (getField result "similarity") (λ similarity,
  bindC (getField result "timestamp") (λ timestamp,
  Return {| id := id;
            title := title;
            thumbnail := "/placeholder.svg?height=200&width=300&query="
                         +:+ encodeURIComponent titleText;
            duration := "0:00";
            indexingStatus := COMPLETED;
            createdAt := beforeT isoNow;
            minioPath := "";
            relevanceScore := similarity;
            matchedTimestamp := timestamp |})))))).

(** [results.map(...)]: only an array has a [map] method. *)
Definition toSearchResults (isoNow : string) (results : JsVal)
  : Completion (list SearchResult) :=
  match results with
  | JArr hits => mapC (toSearchResult isoNow) hits
  | _ => Throw (TypeError "results.map is not a function")
  end.

Definition handleSearch (isoNow : string) (c : State) (w : World)
  : State * Calls * World :=
  if decide (String_trim (query c) = "") then
    (c, {| onSearch := []; onSearchStateChange := [] |}, w)
  else
    let '(r, w) :=
      (let* results := Api.globalSearch NEXT_PUBLIC_API_URL srv (query c)
                         (Some (numberOfZ 5)) in
       lift (toSearchResults isoNow results)) w in
    match r with
    | Return found =>
        ({| query := query c; isSearching := false; searchResults := found |},
         {| onSearch := [found]; onSearchStateChange := [true; false] |}, w)
    | Throw error =>
        ({| query := query c; isSearching := false;
            searchResults := searchResults c |},
         {| onSearch := []; onSearchStateChange := [true; false] |},
         consoleAdd (ConsoleError "Search failed:" error) w)
    end.

Definition clearSearch (c : State) : State * Calls :=
  ({| query := ""; isSearching := isSearching c; searchResults := [] |},
   {| onSearch := [[]]; onSearchStateChange := [false] |}).



End Handlers.

End GlobalSearch.


(** ** A concrete engine and the scenarios of the specification

    For evaluation the runtime is instantiated with integer-valued numbers
    printed in decimal and with ASCII versions of the string built-ins. *)
Module Scenario.
Import Js Browser Video.

Definition hexDigit (n : N) : ascii :=
  match n with
  | 10 => "A" | 11 => "B" | 12 => "C" | 13 => "D" | 14 => "E" | 15 => "F"
  | _ => ascii_of_N (48 + n)
  end%char%N.

Definition unreserved (c : ascii) : bool :=
  let n := N_of_ascii c in
  ((48 <=? n) && (n <=? 57) || (65 <=? n) && (n <=? 90) || (97 <=? n) && (n <=? 122)
   || existsb (Ascii.eqb c) ["-"; "_"; "."; "!"; "~"; "*"; "'"; "("; ")"]%char)%N.

Fixpoint percentEncode (s : string) : string :=
  match s with
  | EmptyString => EmptyString
  | String c r =>
      if unreserved c then String c (percentEncode r)
      else
        let n := N_of_ascii c in
        String "%" (String (hexDigit (n / 16)) (String (hexDigit (n mod 16))
                      (percentEncode r)))%N
  end.

Fixpoint trimStart (s : string) : string :=
  match s with
  | EmptyString => EmptyString
  | String c r => if Ascii.is_space c then trimStart r else s
  end.

Definition trim (s : string) : string :=
  String.rev (trimStart (String.rev (trimStart s))).

#[global] Instance engine : Runtime := {|
  number := Z;
  numberOfZ := λ z, z;
  Number_toString := λ z, NilZero.string_of_int (Z.to_int z);
  encodeURIComponent := percentEncode;
  String_trim := trim;
|}.

Definition emptyWorld : World number :=
  {| localStorage := ∅; requests := []; console := [] |}.

(** A browser in which the session manager has stored the credential [t]. *)
Definition signedInWorld (t : string) : World number :=
  {| localStorage := {[ "firebase_token" := t ]}; requests := []; console := [] |}.

(** A server that answers every request with the same response. *)
Definition always (r : Response number) : Server number := λ _, Responded r.

Definition notFound : Response number :=
  {| status := 404; text := "Video not found";
     json := Return (JObj {[ "detail" := JStr "Video not found" ]}) |}.

(** The [listVideos] scenario: what the server sends and what the
    specification says the client returns. *)
Definition serverVideo : gmap string (JsVal number) :=
  {[ "id" := JNum 1; "indexing_status" := JStr "COMPLETED";
     "created_at" := JStr "2024-01-01"; "minio_path" := JStr "/v/1" ]}.

Definition listResponse : Response number :=
  {| status := 200; text := ""; json := Return (JArr [JObj serverVideo]) |}.

Definition listClaimed : JsVal number :=
  JArr [JObj {[ "id" := JNum 1; "indexingStatus" := JStr "COMPLETED";
                "createdAt" := JStr "2024-01-01"; "minioPath" := JStr "/v/1" ]}].

Definition listReturned : JsVal number :=
  JArr [JObj {[ "id" := JNum 1; "indexing_status" := JStr "COMPLETED";
                "created_at" := JStr "2024-01-01"; "minio_path" := JStr "/v/1";
                "indexingStatus" := JStr "COMPLETED";
                "createdAt" := JStr "2024-01-01"; "minioPath" := JStr "/v/1";
                "thumbnail" := JUndefined ]}].

(** The upload scenario. *)
Definition clip : File := {| fileName := "clip.mp4"; fileContent := "..." |}.

Definition uploadResponse : Response number :=
  {| status := 200; text := "";
     json := Return (JObj {[ "video_id" := JStr "42" ]}) |}.

Definition uploadForm : Upload.State :=
  {| Upload.file := Some clip; Upload.title := "Test";
     Upload.uploading := false; Upload.uploadProgress := 0 |}.

(** A signed-in session and the trace in which a renewal started before the
    sign-out settles after it. *)
Definition alice : Auth.User := {| Auth.uid := "u1"; Auth.email := "alice@example.com" |}.

Definition signedIn : Auth.State number :=
  {| Auth.session := {| Auth.user := Some alice; Auth.token := Some "t1";
                        Auth.loading := false |};
     Auth.world := signedInWorld "t1";
     Auth.awaitingIdToken := [];
     Auth.refreshing := 0 |}.

Definition staleRenewalTrace : list Auth.Event :=
  [ Auth.AuthStateChanged (Some alice);
    Auth.IdTokenSettled alice (Return "t1");
    Auth.RefreshTimerFired;
    Auth.AuthStateChanged None;
    Auth.RefreshSettled (Return "t2") ].

Definition providerDown : JsError := Error "auth/network-request-failed".

(** The same session with one renewal in flight, and what it becomes when
    that renewal fails. *)
Definition renewing : Auth.State number :=
  {| Auth.session := Auth.session signedIn;
     Auth.world := Auth.world signedIn;
     Auth.awaitingIdToken := [];
     Auth.refreshing := 1 |}.

Definition signedInAfterFailure : Auth.State number :=
  {| Auth.session := Auth.session signedIn;
     Auth.world := consoleAdd (ConsoleError "Error refreshing token:" providerDown)
                     (Auth.world signedIn);
     Auth.awaitingIdToken := [];
     Auth.refreshing := 0 |}.

(** A library with one video. *)
Definition oneVideo : Library.State :=
  {| Library.videos := [ {| id := "7"; title := "Beach day"; thumbnail := "";
                    duration := "0:00"; indexingStatus := COMPLETED;
                    createdAt := "2024-01-01"; minioPath := "/v/7" |} ];
     Library.loading := false; Library.searchResults := []; Library.isSearching := false;
     Library.error := ""; Library.deletingId := None; Library.deleteError := "" |}.

(** Two hits of a global search. *)
Definition hits : list (JsVal number) :=
  [ JObj {[ "video_id" := JNum 7; "title" := JStr "Beach day";
            "similarity" := JNum 1; "timestamp" := JNum 95 ]};
    JObj {[ "video_id" := JStr "12"; "title" := JStr "Hiking";
            "similarity" := JNum 0; "timestamp" := JNum 3 ]} ].

End Scenario.


(** ** [AuthGuard] (components/auth-guard.tsx) *)
Module Guard.
Import Auth.

Inductive View := Spinner | ShowLoginForm | Children.

(** What the guard renders for the session it reads from [useAuth]. *)
Definition AuthGuard (ss : Session) : View :=
  if loading ss then Spinner
  else match user ss with
       | None => ShowLoginForm
       | Some _ => Children
       end.

End Guard.

(** ** Events that bring a token from the provider *)
Module Tokens.
Import Js Auth.

(** The two places where the component receives a token: the subscribed
    callback after [getIdToken()] and [refreshToken] after
    [getIdToken(true)]. *)
Definition deliversToken (e : Event) : bool :=
  match e with
  | IdTokenSettled _ (Return _) | RefreshSettled (Return _) => true
  | _ => false
  end.

End Tokens.

(** ** The grid of [VideoLibrary] *)
Module Grid.
Import Video Library.

(** [searchResults.length > 0 ? searchResults : videos] *)
Definition displayed (c : State) : list VideoItem :=
  match searchResults c with
  | [] => videos c
  | _ :: _ => searchResults c
  end.

End Grid.

(** ** The drop zone of [VideoUpload] (components/video-upload.tsx) *)
Module DropZone.
Import Browser Upload.

(** [[^/.]+$]: one or more characters up to the end of the text, none of
    them a slash or a dot. *)
Fixpoint isExtension (s : string) : bool :=
  match s with
  | EmptyString => false
  | String c r =>
      negb (Ascii.eqb c "/" || Ascii.eqb c ".") &&
      match r with
      | EmptyString => true
      | String _ _ => isExtension r
      end
  end.

(** [name.replace(/\.[^/.]+$/, "")]: the leftmost place where a dot is
    followed by an extension that ends the text is cut off. *)
Fixpoint stripExtension (name : string) : string :=
  match name with
  | EmptyString => EmptyString
  | String c r =>
      if Ascii.eqb c "." && isExtension r then EmptyString
      else String c (stripExtension r)
  end.

(** [onDrop]: the first accepted file becomes the chosen file; the title
    is derived from its name only while no title has been typed. *)
Definition onDrop (acceptedFiles : list File) (c : State) : State :=
  match acceptedFiles with
  | [] => c
  | videoFile :: _ =>
      {| file := Some videoFile;
         title := if decide (title c = "") then stripExtension (fileName videoFile)
                  else title c;
         uploading := uploading c;
         uploadProgress := uploadProgress c |}
  end.

Definition removeFile (c : State) : State :=
  {| file := None; title := ""; uploading := uploading c;
     uploadProgress := uploadProgress c |}.

End DropZone.

(** ** [VideoPlayer] (components/video-player.tsx) *)
Module Player.
Import Js Browser.

(** The first [n] characters of [pad] repeated; [cur] is what is left of
    the current copy. *)
Fixpoint filler (n : nat) (pad cur : string) : string :=
  match n with
  | O => EmptyString
  | S n' =>
      match cur with
      | String c r => String c (filler n' pad r)
      | EmptyString =>
          match pad with
          | String c r => String c (filler n' pad r)
          | EmptyString => EmptyString
          end
      end
  end.

(** [s.padStart(targetLength, padString)] *)
Definition padStart (targetLength : nat) (padString s : string) : string :=
  if (targetLength <=? String.length s)%nat then s
  else filler (targetLength - String.length s) padString padString +:+ s.

(** [formatTime] for a whole number of seconds (an integer-valued number in
    the safe range, where the arithmetic of the engine is exact):
    [Math.floor(seconds / 60)] is the floored quotient and [seconds % 60]
    the remainder with the sign of [seconds]. *)
Definition formatTime (seconds : Z) : string :=
  let mins := seconds / 60 in
  let secs := Z.rem seconds 60 in
  pretty mins +:+ ":" +:+ padStart 2 "0" (pretty secs).

Section Data.
Context {num : Type}.

(** The cells [loadVideo] and the search form read and write; [None] is
    the initial [null]. *)
Record State := {
  video : option (JsVal num);
  loading : bool;
  searchQuery : string;
  isSearching : bool;
}.

End Data.
Arguments State : clear implicits.

Section VideoPlayer.
Context `{Runtime}.
Local Abbreviation JsVal := (JsVal number).
Local Abbreviation Server := (Server number).
Local Abbreviation World := (World number).
Local Abbreviation State := (State number).
Variable NEXT_PUBLIC_API_URL : option string.
Variable srv : Server.

(** [loadVideo]: [try { setLoading(true); setVideo(await getVideo(videoId)) }
    catch { console.error } finally { setLoading(false) }]. *)
Definition loadVideo (videoId : string) (c : State) (w : World) : State * World :=
  let '(r, w) := Api.getVideo NEXT_PUBLIC_API_URL srv videoId w in
  match r with
  | Return videoData =>
      ({| video := Some videoData; loading := false;
          searchQuery := searchQuery c; isSearching := isSearching c |}, w)
  | Throw error =>
      ({| video := video c; loading := false;
          searchQuery := searchQuery c; isSearching := isSearching c |},
       consoleAdd (ConsoleError "Failed to load video:" error) w)
  end.

(** [v === s] for a string literal [s]. *)
Definition isString (s : string) (v : JsVal) : bool :=
  match v with
  | JStr t => String.eqb t s
  | _ => false
  end.

(** [disabled={video.indexingStatus !== "COMPLETED"}] on the search input. *)
Definition searchDisabled (video : JsVal) : Completion bool :=
  bindC (getField video "indexingStatus") (λ indexingStatus,
  Return (negb (isString "COMPLETED" indexingStatus))).

End VideoPlayer.

End Player.

(** ** What each method of [ApiClient] sends and how it settles *)
Module ApiExpect.
Import Js Browser Api.

Section Expect.
Context `{Runtime}.
Local Abbreviation JsVal := (JsVal number).
Local Abbreviation Request := (Request number).
Local Abbreviation Response := (Response number).
Local Abbreviation FetchOutcome := (FetchOutcome number).
Variable env : option string.

(** The path a call addresses below the base URL. *)
Definition pathOf (c : Call) : string :=
  match c with
  | CallUploadVideo _ _ => "/api/videos/upload"
  | CallGetUserVideos => "/api/videos"
  | CallGetVideo videoId => "/api/videos/" +:+ videoId
  | CallGlobalSearch _ _ => "/api/search/global"
  | CallSearchInVideo videoId _ _ => "/api/search/video/" +:+ videoId
  | CallGetVideoStreamUrl videoId => "/api/videos/" +:+ videoId +:+ "/stream"
  | CallDeleteVideo videoId => "/api/videos/" +:+ videoId
  | CallTestAuth => "/health"
  end.

(** The request a call is expected to send with the credential [t]. *)
Definition requestOf (c : Call) (t : string) : Request :=
  {| url := API_BASE_URL env +:+ pathOf c;
     method := match c with
               | CallUploadVideo _ _ | CallGlobalSearch _ _
               | CallSearchInVideo _ _ _ => POST
               | CallDeleteVideo _ => DELETE
               | _ => GET
               end;
     headers := headersOf c t;
     body := match c with
             | CallUploadVideo file title =>
                 FormBody [("file", FormFile file); ("title", FormString title)]
             | CallGlobalSearch query limit =>
                 searchBody query (default (numberOfZ 5) limit)
             | CallSearchInVideo _ query limit =>
                 searchBody query (default (numberOfZ 10) limit)
             | _ => NoBody
             end |}.

(** What a call is expected to make of a response that is ok. *)
Definition settles (c : Call) (r : Response) : Completion JsVal :=
  match c with
  | CallGetUserVideos => bindC (json r) mapVideos
  | CallGetVideo _ => bindC (json r) toCamelCase
  | CallDeleteVideo _ => Return (JBool true)
  | _ => json r
  end.

(** What a call is expected to make of the settlement of its [fetch]. *)
Definition outcomeOf (c : Call) (o : FetchOutcome) : Completion JsVal :=
  match o with
  | Rejected e => Throw e
  | Responded r =>
      if ok r then settles c r else Throw (httpError (failurePrefix c) r)
  end.

(** The calls that hand [response.json()] to the caller as it is. *)
Definition passesThrough (c : Call) : bool :=
  match c with
  | CallGetUserVideos | CallGetVideo _ | CallDeleteVideo _ => false
  | _ => true
  end.

End Expect.

End ApiExpect.

(** ** Further scenarios *)
Module Scenario2.
Import Js Browser Video Scenario.

(** Local storage holding an empty credential. *)
Definition emptyTokenWorld : World number :=
  {| localStorage := {[ "firebase_token" := "" ]}; requests := []; console := [] |}.

(** A server that cannot be reached. *)
Definition unreachable : Server number := λ _, Rejected (TypeError "Failed to fetch").

Definition okEmpty : Response number :=
  {| status := 204; text := ""; json := Throw (SyntaxError "Unexpected end of JSON input") |}.

Definition listWithNull : Response number :=
  {| status := 200; text := ""; json := Return (JArr [JObj serverVideo; JNull]) |}.

Definition videoResponse : Response number :=
  {| status := 200; text := ""; json := Return (JObj serverVideo) |}.

Definition uploadWithoutId : Response number :=
  {| status := 200; text := ""; json := Return (JObj ∅) |}.

Definition hitsWithNull : Response number :=
  {| status := 200; text := ""; json := Return (JArr (hits ++ [JNull])) |}.

Definition beach : VideoItem :=
  {| id := "7"; title := "Beach day"; thumbnail := "";
     duration := "0:00"; indexingStatus := COMPLETED;
     createdAt := "2024-01-01"; minioPath := "/v/7" |}.

Definition hike : VideoItem :=
  {| id := "12"; title := "Hiking"; thumbnail := "";
     duration := "0:00"; indexingStatus := PENDING;
     createdAt := "2024-01-02"; minioPath := "/v/12" |}.

(** A library of two videos while a search result is on display. *)
Definition searching : Library.State :=
  {| Library.videos := [beach; hike]; Library.loading := false;
     Library.searchResults := [beach]; Library.isSearching := false;
     Library.error := ""; Library.deletingId := None; Library.deleteError := "" |}.

Definition twoVideos : Library.State :=
  {| Library.videos := [beach; hike]; Library.loading := false;
     Library.searchResults := []; Library.isSearching := false;
     Library.error := ""; Library.deletingId := None; Library.deleteError := "" |}.

Definition justUploaded : NewVideo :=
  {| newTitle := "Test"; newThumbnail := ""; newDuration := "0:00";
     newIndexingStatus := PENDING; newCreatedAt := "2024-05-06";
     newMinioPath := "/videos/42" |}.

Definition searchForm : GlobalSearch.State number :=
  {| GlobalSearch.query := "beach"; GlobalSearch.isSearching := false;
     GlobalSearch.searchResults := [] |}.

Definition playerStart : Player.State number :=
  {| Player.video := None; Player.loading := true;
     Player.searchQuery := ""; Player.isSearching := false |}.

Definition emptyForm : Upload.State :=
  {| Upload.file := None; Upload.title := "";
     Upload.uploading := false; Upload.uploadProgress := 0 |}.

Definition dotfile : File := {| fileName := ".mp4"; fileContent := "..." |}.




(** What can happen after a sign-out without a token arriving: a renewal
    that was in flight fails, the provider announces a user, and the
    callback for that user fails to obtain a token. *)
Definition afterSignOut : list Auth.Event :=
  [ Auth.RefreshSettled (Throw providerDown);
    Auth.AuthStateChanged (Some alice);
    Auth.IdTokenSettled alice (Throw providerDown) ].

Definition holiday : File := {| fileName := "holiday 2024"; fileContent := "..." |}.

Definition archive : File := {| fileName := "a.tar.gz"; fileContent := "..." |}.

End Scenario2.


(** ** Occurrence of a text in another *)

(** [sub] occurs in [s]. *)
Definition contains (sub s : string) : Prop :=
  ∃ pre post, s = pre +:+ sub +:+ post.

(** [s] has no blank in it. *)
Fixpoint noSpace (s : string) : bool :=
  match s with
  | EmptyString => true
  | String c r => negb (Ascii.eqb c " ") && noSpace r
  end.

(** [s] has no [c] in it. *)
Fixpoint lacks (c : ascii) (s : string) : bool :=
  match s with
  | EmptyString => true
  | String d r => negb (Ascii.eqb d c) && lacks c r
  end.

(** * Properties *)

Lemma append_assoc (s1 s2 s3 : string) : (s1 +:+ s2) +:+ s3 = s1 +:+ (s2 +:+ s3).
Proof.
  induction s1 as [|c s IH]; [reflexivity|].
  change (String c ((s +:+ s2) +:+ s3) = String c (s +:+ (s2 +:+ s3))).
  by rewrite IH.
Qed.

Lemma append_nil_r (s : string) : s +:+ "" = s.
Proof.
  induction s as [|c s IH]; [reflexivity|].
  change (String c (s +:+ "") = String c s). by rewrite IH.
Qed.

Lemma contains_app_r sub pre s : contains sub s → contains sub (pre +:+ s).
Proof.
  intros (p & q & ->). exists (pre +:+ p), q. by rewrite append_assoc.
Qed.

Lemma contains_prefix sub post : contains sub (sub +:+ post).
Proof. by exists "", post. Qed.

Lemma contains_refl s : contains s s.
Proof. exists "", "". by rewrite append_nil_r. Qed.

(** A decimal numeral has no blank, so a text that starts with one and a
    blank can be split again. *)
Lemma noSpace_pretty_N_go (x : N) (s : string) :
  noSpace s = true → noSpace (pretty_N_go x s) = true.
Proof.
  revert s. induction (N.lt_wf_0 x) as [x _ IH]; intros s Hs.
  destruct (decide (x = 0)%N) as [->|Hx]; [by rewrite pretty_N_go_0|].
  rewrite pretty_N_go_step by lia.
  apply IH; [apply N.div_lt; lia|].
  cbn [noSpace]. rewrite Hs, andb_true_r.
  unfold pretty_N_char. by repeat case_match.
Qed.

Lemma noSpace_pretty_Z (z : Z) : noSpace (pretty z) = true.
Proof.
  assert (∀ p : positive, noSpace (pretty p) = true) as Hp.
  { intros p. unfold pretty, pretty_positive, pretty, pretty_N.
    destruct (decide _); [done|]. by apply noSpace_pretty_N_go. }
  destruct z as [|p|p]; [done|apply Hp|].
  change (pretty (Z.neg p)) with (String "-" (pretty p)).
  cbn [noSpace]. by rewrite Hp.
Qed.

Lemma split_at_first_space (a b x y : string) :
  noSpace a = true → noSpace b = true →
  a +:+ String " " x = b +:+ String " " y → a = b ∧ x = y.
Proof.
  revert b. induction a as [|c a IH]; intros [|d b] Ha Hb Heq.
  - by injection Heq.
  - injection Heq as <- _. cbn in Hb. done.
  - injection Heq as -> _. cbn in Ha. done.
  - injection Heq as -> Heq. cbn in Ha, Hb.
    apply andb_true_iff in Ha as [_ Ha], Hb as [_ Hb].
    destruct (IH b Ha Hb Heq) as [-> ->]. done.
Qed.

(** ** The API gateway client *)
Module ApiSpec.
Import Js Browser Api.

Section ApiClient.
Context `{Runtime}.
Local Abbreviation JsVal := (JsVal number).
Local Abbreviation Body := (Body number).
Local Abbreviation Request := (Request number).
Local Abbreviation Response := (Response number).
Local Abbreviation Server := (Server number).
Local Abbreviation World := (World number).
Local Abbreviation Prog := (Prog number).
Variable env : option string.
Variable srv : Server.

Lemma getAuthHeaders_missing w :
  credential w = None → getAuthHeaders w = (Throw noToken, w).
Proof.
  unfold credential, getAuthHeaders, bind, getItem.
  destruct (localStorage w !! "firebase_token") as [t|]; [|done].
  by destruct (decide (t = "")).
Qed.

Lemma getAuthHeadersForFormData_missing w :
  credential w = None → getAuthHeadersForFormData w = (Throw noToken, w).
Proof.
  unfold credential, getAuthHeadersForFormData, bind, getItem.
  destruct (localStorage w !! "firebase_token") as [t|]; [|done].
  by destruct (decide (t = "")).
Qed.

Lemma getAuthHeaders_present w t :
  credential w = Some t →
  getAuthHeaders w =
    (Return {[ "Authorization" := "Bearer " +:+ t;
               "Content-Type" := "application/json" ]}, w).
Proof.
  unfold credential, getAuthHeaders, bind, getItem.
  destruct (localStorage w !! "firebase_token") as [t'|]; [|done].
  destruct (decide (t' = "")); [done|]. by intros [= ->].
Qed.

Lemma getAuthHeadersForFormData_present w t :
  credential w = Some t →
  getAuthHeadersForFormData w =
    (Return {[ "Authorization" := "Bearer " +:+ t ]}, w).
Proof.
  unfold credential, getAuthHeadersForFormData, bind, getItem.
  destruct (localStorage w !! "firebase_token") as [t'|]; [|done].
  destruct (decide (t' = "")); [done|]. by intros [= ->].
Qed.

Lemma credential_absent w :
  localStorage w !! "firebase_token" = None → credential w = None.
Proof. unfold credential. by intros ->. Qed.

(** A method that starts with a header computation fails like it does. *)
Lemma bind_throw {A B} (p : Prog A) (k : A → Prog B) e w :
  p w = (Throw e, w) → bind p k w = (Throw e, w).
Proof. unfold bind. by intros ->. Qed.

Lemma bind_return {A B} (p : Prog A) (k : A → Prog B) a w w' :
  p w = (Return a, w') → bind p k w = k a w'.
Proof. unfold bind. by intros ->. Qed.

(** Without a credential no method gets past its header computation; this
    covers a stored empty string as well as a missing entry. *)
Lemma perform_without_credential c w :
  credential w = None → perform env srv c w = (Throw noToken, w).
Proof.
  intros Hc. destruct c; simpl;
    unfold uploadVideo, getUserVideos, getVideo, globalSearch, searchInVideo,
      getVideoStreamUrl, deleteVideo, testAuth;
    apply bind_throw;
    auto using getAuthHeaders_missing, getAuthHeadersForFormData_missing.
Qed.

(** C1. Whatever the method and its arguments, when local storage holds no
    [firebase_token] the call throws [Error("No authentication token found")]
    and the world is unchanged: in particular the list of issued requests is
    the same, so nothing was sent. *)
Theorem unauthenticated_fails_before_any_request (c : Call) (w : World) :
  localStorage w !! "firebase_token" = None →
  perform env srv c w = (Throw noToken, w) ∧
  requests (perform env srv c w).2 = requests w.
Proof.
  intros Hls. apply credential_absent in Hls.
  rewrite (perform_without_credential c w Hls). done.
Qed.

(** With a credential, every method issues exactly one request, and a
    response to it that is not ok is thrown. *)
Lemma perform_rejects_not_ok c w t :
  credential w = Some t →
  ∃ req, headers req = headersOf c t ∧
    ∀ r, srv req = Responded r → ok r = false →
      perform env srv c w = (Throw (httpError (failurePrefix c) r), sent req w).
Proof.
  intros Hc.
  pose proof (getAuthHeaders_present w t Hc) as Hh.
  pose proof (getAuthHeadersForFormData_present w t Hc) as Hf.
  destruct c; simpl;
    unfold uploadVideo, getUserVideos, getVideo, globalSearch, searchInVideo,
      getVideoStreamUrl, deleteVideo, testAuth;
    (eexists; split; [|intros r Hr Hok;
       first [erewrite (bind_return _ _ _ _ _ Hh) | erewrite (bind_return _ _ _ _ _ Hf)];
       unfold bind, fetch; rewrite Hr; rewrite Hok; reflexivity]);
    reflexivity.
Qed.

(** The error built for a response tells its status and its body. *)
Lemma httpError_inj what (r1 r2 : Response) :
  httpError what r1 = httpError what r2 →
  status r1 = status r2 ∧ text r1 = text r2.
Proof.
  unfold httpError. intros [= Heq].
  apply (inj (String.app what)) in Heq.
  apply (inj (String.app ": ")) in Heq.
  change (pretty (status r1) +:+ String " " ("- " +:+ text r1) =
          pretty (status r2) +:+ String " " ("- " +:+ text r2)) in Heq.
  apply split_at_first_space in Heq as [Hs Ht]; [|apply noSpace_pretty_Z..].
  split; [by apply (inj pretty)|by apply (inj (String.app "- "))].
Qed.

Lemma not_2xx_not_ok (r : Response) : ¬ (200 ≤ status r ≤ 299) → ok r = false.
Proof.
  intros Hs. unfold ok. apply andb_false_iff.
  destruct (Z.leb_spec 200 (status r)), (Z.leb_spec (status r) 299); auto; lia.
Qed.

(** C2. With a credential stored, every method issues one request; whenever
    the response to it has a status outside 200..299 the call throws
    [Error(`<prefix>: ${status} - ${body}`)].  The thrown failure carries the
    decimal status of the response and the response body text in its
    message, and it determines both: a response that would produce the same
    failure has the same status and the same body.  No such response yields
    a normal return. *)
Theorem non_2xx_is_thrown_with_status_and_body (c : Call) (w : World) (t : string) :
  localStorage w !! "firebase_token" = Some t → t ≠ "" →
  ∃ req, ∀ r,
    srv req = Responded r → ¬ (200 ≤ status r ≤ 299) →
    ∃ e, perform env srv c w = (Throw e, sent req w) ∧
         message e =
           failurePrefix c +:+ ": " +:+ pretty (status r) +:+ " - " +:+ text r ∧
         contains (pretty (status r)) (message e) ∧
         contains (text r) (message e) ∧
         ∀ r', e = httpError (failurePrefix c) r' →
               status r' = status r ∧ text r' = text r.
Proof.
  intros Hls Ht.
  assert (credential w = Some t) as Hc.
  { unfold credential. rewrite Hls. by destruct (decide (t = "")). }
  destruct (perform_rejects_not_ok c w t Hc) as (req & _ & Hreq).
  exists req. intros r Hr Hs. eexists. split.
  - apply Hreq; [done|]. by apply not_2xx_not_ok.
  - simpl. split; [done|]. split; [|split].
    + do 2 apply contains_app_r. apply contains_prefix.
    + do 4 apply contains_app_r. apply contains_refl.
    + intros r' Heq. symmetry in Heq. by apply httpError_inj in Heq.
Qed.

Lemma toCamelCase_object o :
  ∃ o', toCamelCase (JObj o) = Return (JObj o') ∧ camelCased o o'.
Proof.
  eexists. split; [reflexivity|].
  unfold camelCased, field. cbn [spread].
  repeat split.
  - do 3 (rewrite lookup_insert_ne by done). by rewrite lookup_insert_eq.
  - do 2 (rewrite lookup_insert_ne by done). by rewrite lookup_insert_eq.
  - rewrite lookup_insert_ne by done. by rewrite lookup_insert_eq.
  - by rewrite lookup_insert_eq.
  - intros k Hk. rewrite !not_elem_of_cons in Hk.
    destruct Hk as (? & ? & ? & ? & _).
    by do 4 (rewrite lookup_insert_ne by done).
Qed.

Lemma mapC_toCamelCase_objects (os : list (gmap string JsVal)) :
  ∃ os', mapC toCamelCase (JObj <$> os) = Return (JObj <$> os') ∧
         Forall2 camelCased os os'.
Proof.
  induction os as [|o os (os' & IH & HF)]; [by exists []|].
  destruct (toCamelCase_object o) as (o' & Ho & Hc).
  exists (o' :: os'). split; [|by constructor].
  cbn [fmap list_fmap mapC]. rewrite Ho. cbn [bindC].
  change (mapC toCamelCase (list_fmap _ _ JObj os)) with (mapC toCamelCase (JObj <$> os)).
  by rewrite IH.
Qed.

(** C5 (as amended). On a 2xx response whose body is an array of objects,
    [getUserVideos] returns one object per server object, in the same order.
    Each returned object keeps every field of the server object under its
    server name and additionally has [indexingStatus], [createdAt],
    [minioPath] and [thumbnail] set to the server's [indexing_status],
    [created_at], [minio_path] and [thumbnail] ([undefined] where the server
    object has none). *)
Theorem getUserVideos_adds_camelCase_fields
    (w : World) (t : string) (r : Response) (os : list (gmap string JsVal)) :
  localStorage w !! "firebase_token" = Some t → t ≠ "" →
  srv (listRequest env t) = Responded r →
  200 ≤ status r ≤ 299 →
  json r = Return (JArr (JObj <$> os)) →
  ∃ os', getUserVideos env srv w =
           (Return (JArr (JObj <$> os')), sent (listRequest env t) w) ∧
         length os' = length os ∧
         Forall2 camelCased os os'.
Proof.
  intros Hls Ht Hr Hs Hj.
  assert (credential w = Some t) as Hc.
  { unfold credential. rewrite Hls. by destruct (decide (t = "")). }
  destruct (mapC_toCamelCase_objects os) as (os' & Hm & HF).
  exists os'. split; [|split; [by apply Forall2_length in HF|done]].
  unfold getUserVideos.
  rewrite (bind_return _ _ _ _ _ (getAuthHeaders_present w t Hc)).
  unfold bind, fetch. fold (listRequest env t). rewrite Hr.
  replace (ok r) with true
    by (symmetry; unfold ok; apply andb_true_iff; split; apply Z.leb_le; lia).
  cbn [negb]. unfold lift. rewrite Hj. cbn [mapVideos]. by rewrite Hm.
Qed.

End ApiClient.


Import Scenario.

Lemma unauthenticated_fails_before_any_request_witness :
  localStorage emptyWorld !! "firebase_token" = None ∧
  perform None (always listResponse) (CallDeleteVideo "7") emptyWorld
    = (Throw noToken, emptyWorld) ∧
  requests (perform None (always listResponse) (CallDeleteVideo "7") emptyWorld).2
    = requests emptyWorld.
Proof.
  split; [vm_compute; reflexivity|].
  apply (unauthenticated_fails_before_any_request
           None (always listResponse) (CallDeleteVideo "7") emptyWorld).
  vm_compute; reflexivity.
Defined.

Lemma non_2xx_is_thrown_with_status_and_body_witness :
  ∃ req, ∀ r,
    always notFound req = Responded r → ¬ (200 ≤ status r ≤ 299) →
    ∃ e, perform None (always notFound) (CallGetVideo "7") (signedInWorld "tok")
           = (Throw e, sent req (signedInWorld "tok")) ∧
         message e =
           failurePrefix (CallGetVideo "7") +:+ ": " +:+ pretty (status r)
             +:+ " - " +:+ text r ∧
         contains (pretty (status r)) (message e) ∧
         contains (text r) (message e) ∧
         ∀ r', e = httpError (failurePrefix (CallGetVideo "7")) r' →
               status r' = status r ∧ text r' = text r.
Proof.
  apply (non_2xx_is_thrown_with_status_and_body
           None (always notFound) (CallGetVideo "7") (signedInWorld "tok") "tok");
    [vm_compute; reflexivity | discriminate].
Defined.

(** The failure a 404 produces, evaluated. *)
Example getVideo_404 :
  (perform None (always notFound) (CallGetVideo "7") (signedInWorld "tok")).1
    = Throw (Error "Failed to fetch video: 404 - Video not found").
Proof. vm_compute; reflexivity. Qed.

Lemma getUserVideos_adds_camelCase_fields_witness :
  ∃ os', getUserVideos None (always listResponse) (signedInWorld "t1") =
           (Return (JArr (JObj <$> os')),
            sent (listRequest None "t1") (signedInWorld "t1")) ∧
         length os' = length [serverVideo] ∧
         Forall2 camelCased [serverVideo] os'.
Proof.
  apply (getUserVideos_adds_camelCase_fields
           None (always listResponse) (signedInWorld "t1") "t1" listResponse
           [serverVideo]);
    [vm_compute; reflexivity | discriminate | reflexivity | simpl; lia | reflexivity].
Defined.

(** C5, the scenario as the specification states it.  The server array
    [[{id:1, indexing_status:"COMPLETED", created_at:"2024-01-01",
    minio_path:"/v/1"}]] does not come back as the four-field object of the
    specification: the snake_case fields are still there and a [thumbnail]
    key has been added. *)
Lemma getUserVideos_scenario_counterexample :
  (getUserVideos None (always listResponse) (signedInWorld "t1")).1
    = Return listReturned ∧
  (getUserVideos None (always listResponse) (signedInWorld "t1")).1
    ≠ Return listClaimed.
Proof.
  assert ((getUserVideos None (always listResponse) (signedInWorld "t1")).1
          = Return listReturned) as Heq by (vm_compute; reflexivity).
  split; [exact Heq|].
  rewrite Heq. vm_compute. intros [=].
Qed.

End ApiSpec.

(** ** The session manager *)
Module AuthSpec.
Import Js Browser Auth.

Section AuthProvider.
Context {num : Type}.
Local Abbreviation State := (State num).

Implicit Types (s : State) (e : Event) (evs : list Event).

Lemma onSignedOut_cleared s :
  cleared (onSignedOut s) ∧ loading (session (onSignedOut s)) = false.
Proof.
  unfold cleared. cbn. repeat split. apply lookup_delete_eq.
Qed.

Lemma onIdToken_paired u r s :
  paired (session (onIdToken u r s)) ∧ loading (session (onIdToken u r s)) = false.
Proof. destruct r; cbn; unfold paired; cbn; naive_solver. Qed.

Lemma completed_callback e s s' :
  completesCallback e = true → step e s = Some s' →
  paired (session s') ∧ loading (session s') = false.
Proof.
  destruct e as [[u|]|u r| |r]; try discriminate; intros _; cbn.
  - intros [= <-]. split; [|done]. by unfold paired.
  - destruct (decide _); [|discriminate]. intros [= <-]. apply onIdToken_paired.
Qed.

Lemma step_userHasToken e s s' :
  userHasToken (session s) → step e s = Some s' → userHasToken (session s').
Proof.
  unfold userHasToken. intros Hs.
  destruct e as [[u|]|u r| |r]; cbn.
  - by intros [= <-].
  - intros [= <-]. cbn. by intros [? [=]].
  - destruct (decide _); [|discriminate]. intros [= <-].
    destruct r; cbn; [eauto|by intros [? [=]]].
  - destruct (user (session s)) eqn:Hu; [|discriminate]. intros [= <-].
    cbn. by rewrite Hu.
  - destruct (refreshing s); [discriminate|]. intros [= <-].
    destruct r; cbn; eauto.
Qed.

Lemma step_paired e s s' :
  paired (session s) → stale e s = false → step e s = Some s' →
  paired (session s').
Proof.
  unfold paired. intros Hs Hfresh.
  destruct e as [[u|]|u r| |r]; cbn.
  - by intros [= <-].
  - by intros [= <-].
  - destruct (decide _); [|discriminate]. intros [= <-].
    apply onIdToken_paired.
  - destruct (user (session s)) eqn:Hu; [|discriminate]. intros [= <-].
    cbn. by rewrite Hu.
  - destruct (refreshing s); [discriminate|]. intros [= <-].
    unfold stale in Hfresh.
    destruct r, (user (session s)) eqn:Hu; cbn; rewrite ?Hu; try done.
Qed.

Lemma run_userHasToken evs s s' :
  userHasToken (session s) → run evs s = Some s' → userHasToken (session s').
Proof.
  revert s. induction evs as [|e evs IH]; intros s Hs; cbn.
  - by intros [= <-].
  - destruct (step e s) as [s1|] eqn:He; [|discriminate].
    apply IH. by eapply step_userHasToken.
Qed.

Lemma run_paired evs s s' :
  paired (session s) → noStaleRenewal evs s = true → run evs s = Some s' →
  paired (session s').
Proof.
  revert s. induction evs as [|e evs IH]; intros s Hs; cbn.
  - by intros _ [= <-].
  - intros [Hf Hrest]%andb_true_iff. apply negb_true_iff in Hf.
    destruct (step e s) as [s1|] eqn:He; [|discriminate].
    apply IH; [by eapply step_paired|done].
Qed.

(** C3 (as amended). [logout] only awaits the provider's [signOut].  When
    that resolves, the provider's sign-out report has run the callback's
    signed-out branch: user and token are [null], [firebase_token] is gone
    from local storage and [loading] is false.  When it rejects, [logout]
    rejects with the same error and neither the session nor local storage
    has changed. *)
Theorem logout_clears_through_provider_report s :
  (logout SignOutResolved s).1 = Return () ∧
  cleared (logout SignOutResolved s).2 ∧
  loading (session (logout SignOutResolved s).2) = false ∧
  ∀ err, logout (SignOutRejected err) s = (Throw err, s).
Proof.
  split; [done|]. split; [apply onSignedOut_cleared|]. split; done.
Qed.

(** X26. In every state the component can reach from its mount: a present
    user has a token; user and token are both present or both absent
    provided no renewal has settled after its user was signed out; and any
    run of the provider callback that finishes next leaves user and token
    both set or both cleared, with [loading] false. *)
Theorem reachable_sessions_are_paired ls evs s :
  run evs (initial ls) = Some s →
  userHasToken (session s) ∧
  (noStaleRenewal evs (initial (num:=num) ls) = true → paired (session s)) ∧
  (∀ e s', completesCallback e = true → step e s = Some s' →
           paired (session s') ∧ loading (session s') = false).
Proof.
  intros Hrun. split; [|split].
  - apply (run_userHasToken evs (initial ls) s); [|done].
    intros [? Hu]. discriminate Hu.
  - intros Hfresh. by apply (run_paired evs (initial ls) s).
  - intros e s'. apply completed_callback.
Qed.

(** What a finished callback leaves behind, case by case. *)
Lemma callback_outcome u r s s' :
  step (IdTokenSettled u r) s = Some s' →
  match r with
  | Return t =>
      user (session s') = Some u ∧ token (session s') = Some t ∧
      localStorage (world s') !! "firebase_token" = Some t
  | Throw _ => cleared s'
  end.
Proof.
  cbn. destruct (decide _); [|discriminate]. intros [= <-].
  destruct r; cbn; unfold cleared; cbn.
  - by rewrite lookup_insert_eq.
  - by rewrite lookup_delete_eq.
Qed.

(** C8. When the renewal started by the timer fails, the rest of
    [refreshToken] writes one [console.error] entry and nothing else: the
    session (user, token, loading), local storage and the suspended
    callbacks are exactly as before. *)
Theorem refresh_failure_is_only_logged s err s' :
  step (RefreshSettled (Throw err)) s = Some s' →
  session s' = session s ∧
  localStorage (world s') = localStorage (world s) ∧
  requests (world s') = requests (world s) ∧
  console (world s') =
    (console (world s) ++ [ConsoleError "Error refreshing token:" err])%list ∧
  awaitingIdToken s' = awaitingIdToken s.
Proof.
  cbn. destruct (refreshing s); [discriminate|]. by intros [= <-].
Qed.

End AuthProvider.

Import Scenario.

(** C3. With a user signed in and the credential ["t1"] persisted, a
    rejected [signOut] leaves the session and the persisted credential in
    place. *)
Lemma logout_rejected_counterexample :
  (logout (SignOutRejected providerDown) signedIn).1 = Throw providerDown ∧
  user (session (logout (SignOutRejected providerDown) signedIn).2) = Some alice ∧
  token (session (logout (SignOutRejected providerDown) signedIn).2) = Some "t1" ∧
  localStorage (world (logout (SignOutRejected providerDown) signedIn).2)
    !! "firebase_token" = Some "t1" ∧
  ¬ cleared (logout (SignOutRejected providerDown) signedIn).2.
Proof.
  repeat split; try (vm_compute; reflexivity).
  intros (Hu & _). vm_compute in Hu. discriminate Hu.
Qed.

(** C4. The pairing of user and token is broken by a renewal in flight:
    [refreshToken], started by the timer while signed in and suspended at
    [getIdToken(true)], resumes after the signed-out branch has cleared
    everything and stores its token.  From the mount the component reaches
    a state with no user and the token ["t2"], also persisted. *)
Lemma stale_renewal_counterexample :
  ∃ s, run staleRenewalTrace (initial (num:=number) ∅) = Some s ∧
       user (session s) = None ∧ token (session s) = Some "t2" ∧
       localStorage (world s) !! "firebase_token" = Some "t2" ∧
       ¬ paired (session s).
Proof.
  eexists. split; [reflexivity|]. repeat split; try (vm_compute; reflexivity).
  unfold paired. cbn. intros [Hp _]. by specialize (Hp eq_refl).
Qed.

Lemma reachable_sessions_are_paired_witness :
  ∃ s, run [AuthStateChanged (Some alice); IdTokenSettled alice (Return "t1")]
           (initial (num:=number) ∅) = Some s ∧
       userHasToken (session s) ∧
       (noStaleRenewal [AuthStateChanged (Some alice); IdTokenSettled alice (Return "t1")]
          (initial (num:=number) ∅) = true → paired (session s)) ∧
       (∀ e s', completesCallback e = true → step e s = Some s' →
                paired (session s') ∧ loading (session s') = false).
Proof.
  eexists. split; [reflexivity|].
  apply (reachable_sessions_are_paired (num:=number) ∅
           [AuthStateChanged (Some alice); IdTokenSettled alice (Return "t1")]).
  reflexivity.
Defined.

Lemma refresh_failure_is_only_logged_witness :
  step (RefreshSettled (Throw providerDown)) renewing = Some signedInAfterFailure ∧
  session signedInAfterFailure = session renewing ∧
  localStorage (world signedInAfterFailure) = localStorage (world renewing) ∧
  requests (world signedInAfterFailure) = requests (world renewing) ∧
  console (world signedInAfterFailure) =
    (console (world renewing) ++ [ConsoleError "Error refreshing token:" providerDown])%list ∧
  awaitingIdToken signedInAfterFailure = awaitingIdToken renewing.
Proof.
  split; [reflexivity|].
  apply (refresh_failure_is_only_logged renewing providerDown signedInAfterFailure).
  reflexivity.
Defined.

End AuthSpec.

(** ** The video library *)
Module LibrarySpec.
Import Js Browser Video Api Library.

Section VideoLibrary.
Context `{Runtime}.
Local Abbreviation Request := (Request number).
Local Abbreviation Response := (Response number).
Local Abbreviation Server := (Server number).
Local Abbreviation World := (World number).
Variable env : option string.
Variable srv : Server.

Lemma deleteMessage_nonempty err : deleteMessage err ≠ "".
Proof. unfold deleteMessage. by destruct (decide (message err = "")). Qed.

(** Whatever makes [deleteVideo] throw, the handler keeps the list and
    shows a message. *)
Lemma handleDelete_on_failure videoId (c : State) (w w' : World) err :
  deleteVideo env srv videoId
    (consoleAdd (ConsoleLog ("Deleting video: " +:+ videoId)) w) = (Throw err, w') →
  handleDelete env srv videoId c w =
    ({| videos := videos c; loading := loading c;
        searchResults := searchResults c; isSearching := isSearching c;
        error := error c; deletingId := None;
        deleteError := deleteMessage err |}, w').
Proof. unfold handleDelete. by intros ->. Qed.

Lemma deleteVideo_not_ok (w : World) t videoId (r : Response) :
  localStorage w !! "firebase_token" = Some t → t ≠ "" →
  srv (deleteRequest env t videoId) = Responded r → ok r = false →
  deleteVideo env srv videoId w =
    (Throw (httpError "Failed to delete video" r), sent (deleteRequest env t videoId) w).
Proof.
  intros Hls Ht Hr Hok.
  assert (Api.credential w = Some t) as Hc.
  { unfold Api.credential. rewrite Hls. by destruct (decide (t = "")). }
  unfold deleteVideo.
  rewrite (ApiSpec.bind_return _ _ _ _ _ (ApiSpec.getAuthHeaders_present w t Hc)).
  unfold bind, fetch. fold (deleteRequest env t videoId). rewrite Hr.
  by rewrite Hok.
Qed.

(** C6. When the server answers the DELETE with a status outside 200..299,
    [deleteVideo] throws an error whose message carries that status and the
    response body; [handleDelete] leaves [videos] as it was, puts that
    message in [deleteError] (so the failure is displayed, not dropped) and
    resets [deletingId]. *)
Theorem failed_delete_is_shown_and_keeps_the_list
    (videoId : string) (c : State) (w : World) (t : string) (r : Response) :
  localStorage w !! "firebase_token" = Some t → t ≠ "" →
  srv (deleteRequest env t videoId) = Responded r →
  ¬ (200 ≤ status r ≤ 299) →
  (deleteVideo env srv videoId w).1 =
    Throw (Error ("Failed to delete video: " +:+ pretty (status r) +:+ " - " +:+ text r)) ∧
  videos (handleDelete env srv videoId c w).1 = videos c ∧
  deleteError (handleDelete env srv videoId c w).1 =
    "Failed to delete video: " +:+ pretty (status r) +:+ " - " +:+ text r ∧
  deleteError (handleDelete env srv videoId c w).1 ≠ "" ∧
  deletingId (handleDelete env srv videoId c w).1 = None.
Proof.
  intros Hls Ht Hr Hs. apply ApiSpec.not_2xx_not_ok in Hs.
  split.
  { by rewrite (deleteVideo_not_ok w t videoId r Hls Ht Hr Hs). }
  erewrite handleDelete_on_failure
    by (apply deleteVideo_not_ok; [exact Hls|exact Ht|exact Hr|exact Hs]).
  cbn [fst videos deleteError deletingId].
  assert (deleteMessage (httpError "Failed to delete video" r) =
          "Failed to delete video: " +:+ pretty (status r) +:+ " - " +:+ text r)
    as Hm by reflexivity.
  rewrite Hm. repeat split. discriminate.
Qed.

(** A successful delete, for comparison, removes the entries with that id. *)
Lemma handleDelete_on_success videoId (c : State) (w w' : World) v :
  deleteVideo env srv videoId
    (consoleAdd (ConsoleLog ("Deleting video: " +:+ videoId)) w) = (Return v, w') →
  videos (handleDelete env srv videoId c w).1 =
    filter (λ x, id x ≠ videoId) (videos c).
Proof. unfold handleDelete. by intros ->. Qed.

(** The handlers never rewrite the status of a listed video: what is listed
    afterwards was listed before, or is the entry just uploaded. *)
Lemma handlers_keep_entries videoId now nv (c : State) (w : World) (v : VideoItem) :
  (v ∈ videos (handleDelete env srv videoId c w).1 → v ∈ videos c) ∧
  (v ∈ videos (handleVideoUpload now nv c) →
   v ∈ videos c ∨ indexingStatus v = newIndexingStatus nv).
Proof.
  split.
  - unfold handleDelete.
    destruct (deleteVideo _ _ _ _) as [[?|?] ?]; cbn; [|done].
    by intros [_ ?]%list_elem_of_filter.
  - cbn. intros [->|?]%elem_of_cons; [by right|by left].
Qed.

(** C9. For each of the four indexing states, [getStatusIcon],
    [getStatusText] and [getStatusVariant] all return a value (none falls
    through its [switch]), so the badge of a video is always defined.  The
    three are functions of the status alone: they read no state and change
    none. *)
Theorem status_presentation_is_exhaustive (st : IndexingStatus) :
  is_Some (getStatusIcon (statusName st)) ∧
  is_Some (getStatusText (statusName st)) ∧
  is_Some (getStatusVariant (statusName st)).
Proof. destruct st; repeat split; eexists; reflexivity. Qed.

(** Hence every listed video gets a badge. *)
Lemma statusBadge_defined (v : VideoItem) : is_Some (statusBadge v).
Proof. unfold statusBadge. destruct (indexingStatus v); eexists; reflexivity. Qed.

(** The table itself. *)
Example status_presentation_table :
  getStatusText "COMPLETED" = Some "Ready" ∧
  getStatusText "INDEXING" = Some "Processing..." ∧
  getStatusText "PENDING" = Some "Queued" ∧
  getStatusText "FAILED" = Some "Failed" ∧
  getStatusVariant "COMPLETED" = Some "default" ∧
  getStatusVariant "INDEXING" = Some "secondary" ∧
  getStatusVariant "PENDING" = Some "outline" ∧
  getStatusVariant "FAILED" = Some "destructive" ∧
  icon <$> getStatusIcon "COMPLETED" = Some CheckCircle ∧
  icon <$> getStatusIcon "INDEXING" = Some Clock ∧
  icon <$> getStatusIcon "PENDING" = Some Clock ∧
  icon <$> getStatusIcon "FAILED" = Some AlertCircle.
Proof. repeat split. Qed.

(** Outside the four states the helpers return [undefined]. *)
Example status_presentation_elsewhere :
  getStatusText "UPLOADING" = None ∧ getStatusIcon "" = None ∧
  getStatusVariant "completed" = None.
Proof. repeat split. Qed.

End VideoLibrary.

Import Scenario.

Lemma failed_delete_is_shown_and_keeps_the_list_witness :
  (deleteVideo None (always notFound) "7" (signedInWorld "tok")).1 =
    Throw (Error ("Failed to delete video: " +:+ pretty (status notFound)
                  +:+ " - " +:+ text notFound)) ∧
  videos (handleDelete None (always notFound) "7" oneVideo (signedInWorld "tok")).1
    = videos oneVideo ∧
  deleteError (handleDelete None (always notFound) "7" oneVideo (signedInWorld "tok")).1
    = "Failed to delete video: " +:+ pretty (status notFound) +:+ " - "
        +:+ text notFound ∧
  deleteError (handleDelete None (always notFound) "7" oneVideo (signedInWorld "tok")).1
    ≠ "" ∧
  deletingId (handleDelete None (always notFound) "7" oneVideo (signedInWorld "tok")).1
    = None.
Proof.
  apply (failed_delete_is_shown_and_keeps_the_list
           None (always notFound) "7" oneVideo (signedInWorld "tok") "tok" notFound);
    [vm_compute; reflexivity | discriminate | reflexivity | simpl; lia].
Defined.

(** The scenario of the specification, evaluated. *)
Example deleteVideo_404 :
  deleteError (handleDelete None (always notFound) "7" oneVideo (signedInWorld "tok")).1
    = "Failed to delete video: 404 - Video not found".
Proof. vm_compute; reflexivity. Qed.

End LibrarySpec.

(** ** The upload form *)
Module UploadSpec.
Import Js Browser Video Api Upload.

Section VideoUpload.
Context `{Runtime}.
Local Abbreviation JsVal := (JsVal number).
Local Abbreviation Response := (Response number).
Local Abbreviation Server := (Server number).
Local Abbreviation World := (World number).
Variable env : option string.
Variable srv : Server.

Lemma uploadVideo_ok (w : World) t f title (r : Response) :
  localStorage w !! "firebase_token" = Some t → t ≠ "" →
  srv (uploadRequest env t f title) = Responded r → ok r = true →
  uploadVideo env srv f title w = (json r, sent (uploadRequest env t f title) w).
Proof.
  intros Hls Ht Hr Hok.
  assert (credential w = Some t) as Hc.
  { unfold credential. rewrite Hls. by destruct (decide (t = "")). }
  unfold uploadVideo.
  rewrite (ApiSpec.bind_return _ _ _ _ _ (ApiSpec.getAuthHeadersForFormData_present w t Hc)).
  unfold bind, fetch. fold (uploadRequest env t f title). rewrite Hr.
  by rewrite Hok.
Qed.

(** C7. With a file chosen, a title typed and a credential stored,
    [handleUpload] sends one POST to [/api/videos/upload] whose body is the
    form [file], [title] and whose only header is [Authorization: Bearer
    <token>] (no [Content-Type]).  When the answer is 2xx with a JSON object
    whose [video_id] is the string [vid], [onUpload] is called once, with an
    entry whose [indexingStatus] is [PENDING] and whose [minioPath] is
    [/videos/<vid>], and the form is reset. *)
Theorem upload_posts_form_and_derives_pending_entry
    (isoNow : string) (c : State) (w : World) (f : File) (t : string)
    (r : Response) (o : gmap string JsVal) (vid : string) :
  file c = Some f → title c ≠ "" →
  localStorage w !! "firebase_token" = Some t → t ≠ "" →
  srv (uploadRequest env t f (title c)) = Responded r →
  200 ≤ status r ≤ 299 →
  json r = Return (JObj o) → o !! "video_id" = Some (JStr vid) →
  ∃ v, handleUpload env srv isoNow c w =
         ({| file := None; title := ""; uploading := false; uploadProgress := 0 |},
          [v], sent (uploadRequest env t f (title c)) w) ∧
       body (uploadRequest env t f (title c)) =
         FormBody [("file", FormFile f); ("title", FormString (title c))] ∧
       headers (uploadRequest env t f (title c)) !! "Authorization" =
         Some ("Bearer " +:+ t) ∧
       headers (uploadRequest env t f (title c)) !! "Content-Type" = None ∧
       newTitle v = title c ∧
       newIndexingStatus v = PENDING ∧
       newMinioPath v = "/videos/" +:+ vid.
Proof.
  intros Hf Htitle Hls Ht Hr Hs Hj Hid.
  assert (ok r = true) as Hok
    by (unfold ok; apply andb_true_iff; split; apply Z.leb_le; lia).
  eexists. split; [|split; [reflexivity|split; [|split]]].
  - unfold handleUpload. rewrite Hf.
    destruct (decide (title c = "")); [done|].
    unfold bind. rewrite (uploadVideo_ok w t f (title c) r Hls Ht Hr Hok).
    rewrite Hj. unfold lift, newVideo. cbn [getField bindC].
    rewrite Hid. cbn [default ToString bindC]. reflexivity.
  - unfold uploadRequest. cbn [headers]. apply lookup_singleton_eq.
  - unfold uploadRequest. cbn [headers]. by apply lookup_singleton_ne.
  - by cbn.
Qed.

(** Without a file or without a title nothing happens at all. *)
Lemma handleUpload_needs_file_and_title isoNow (c : State) (w : World) :
  file c = None ∨ title c = "" → handleUpload env srv isoNow c w = (c, [], w).
Proof.
  unfold handleUpload. intros [Hf|Ht].
  - by rewrite Hf.
  - destruct (file c); [|done]. by destruct (decide (title c = "")).
Qed.

End VideoUpload.

Import Scenario.

Lemma upload_posts_form_and_derives_pending_entry_witness :
  ∃ v, handleUpload None (always uploadResponse) "2024-05-06T10:00:00.000Z"
         uploadForm (signedInWorld "tok") =
         ({| file := None; title := ""; uploading := false; uploadProgress := 0 |},
          [v], sent (uploadRequest None "tok" clip (title uploadForm)) (signedInWorld "tok")) ∧
       body (uploadRequest None "tok" clip (title uploadForm)) =
         FormBody [("file", FormFile clip); ("title", FormString (title uploadForm))] ∧
       headers (uploadRequest None "tok" clip (title uploadForm)) !! "Authorization" =
         Some ("Bearer " +:+ "tok") ∧
       headers (uploadRequest None "tok" clip (title uploadForm)) !! "Content-Type" = None ∧
       newTitle v = title uploadForm ∧
       newIndexingStatus v = PENDING ∧
       newMinioPath v = "/videos/" +:+ "42".
Proof.
  apply (upload_posts_form_and_derives_pending_entry
           None (always uploadResponse) "2024-05-06T10:00:00.000Z" uploadForm
           (signedInWorld "tok") clip "tok" uploadResponse
           {[ "video_id" := JStr "42" ]} "42");
    [reflexivity | discriminate | vm_compute; reflexivity | discriminate
    | reflexivity | simpl; lia | reflexivity | vm_compute; reflexivity].
Defined.

(** The scenario of the specification, evaluated. *)
Example upload_scenario :
  (handleUpload None (always uploadResponse) "2024-05-06T10:00:00.000Z"
     uploadForm (signedInWorld "tok")).1.2 =
    [ {| newTitle := "Test";
         newThumbnail :=
           "/placeholder.svg?height=200&width=300&query=Test video thumbnail";
         newDuration := "0:00";
         newIndexingStatus := PENDING;
         newCreatedAt := "2024-05-06";
         newMinioPath := "/videos/42" |} ].
Proof. vm_compute; reflexivity. Qed.

End UploadSpec.

(** ** Global search *)
Module GlobalSearchSpec.
Import Js Browser Video Api GlobalSearch.

Section Handlers.
Context `{Runtime}.
Local Abbreviation JsVal := (JsVal number).
Local Abbreviation SearchResult := (SearchResult number).
Variable env : option string.
Variable srv : Server number.




(** A hit without [video_id] makes [results.map] throw: no entry at all is
    produced, whatever the other hits are. *)
Lemma hit_without_video_id_aborts isoNow (o : gmap string JsVal) (hits : list JsVal) :
  o !! "video_id" = None →
  ∃ err, toSearchResults isoNow (JArr (JObj o :: hits)) = Throw err.
Proof.
  intros Ho. eexists. cbn [toSearchResults mapC].
  unfold toSearchResult. cbn [getField bindC]. rewrite Ho. reflexivity.
Qed.



End Handlers.

Import Scenario Scenario2.




(** The ids of the converted example hits: a numeric id is printed, a
    string id is kept. *)
Example search_ids :
  bindC (toSearchResults "2024-05-06T10:00:00.000Z" (JArr hits))
        (λ entries, Return (id <$> entries))
    = Return ["7"; "12"].
Proof. vm_compute; reflexivity. Qed.

End GlobalSearchSpec.

(** * Further properties of the code *)

(** ** Texts and lists *)

Lemma lacks_pretty_N_go (c : ascii) (x : N) (s : string) :
  (N_of_ascii c < 48 ∨ 57 < N_of_ascii c)%N →
  lacks c s = true → lacks c (pretty_N_go x s) = true.
Proof.
  intros Hc. revert s. induction (N.lt_wf_0 x) as [x _ IH]; intros s Hs.
  destruct (decide (x = 0)%N) as [->|Hx]; [by rewrite pretty_N_go_0|].
  rewrite pretty_N_go_step by lia.
  apply IH; [apply N.div_lt; lia|].
  cbn [lacks]. rewrite Hs, andb_true_r. apply negb_true_iff, Ascii.eqb_neq.
  intros <-. unfold pretty_N_char in Hc.
  repeat case_match; cbn in Hc; lia.
Qed.

(** A decimal numeral consists of digits and possibly a leading minus. *)
Lemma lacks_pretty_Z (c : ascii) (z : Z) :
  (N_of_ascii c < 48 ∨ 57 < N_of_ascii c)%N → c ≠ "-"%char →
  lacks c (pretty z) = true.
Proof.
  intros Hc Hm.
  assert (∀ p : positive, lacks c (pretty p) = true) as Hp.
  { intros p. unfold pretty, pretty_positive, pretty, pretty_N.
    destruct (decide _); [done|]. by apply lacks_pretty_N_go. }
  destruct z as [|p|p].
  - change (pretty 0%Z) with "0". cbn [lacks].
    rewrite andb_true_r. apply negb_true_iff, Ascii.eqb_neq.
    intros <-. cbn in Hc. lia.
  - apply Hp.
  - change (pretty (Z.neg p)) with (String "-" (pretty p)).
    cbn [lacks]. rewrite Hp, andb_true_r.
    apply negb_true_iff, Ascii.eqb_neq. congruence.
Qed.

Lemma split_at_first (c : ascii) (a b x y : string) :
  lacks c a = true → lacks c b = true →
  a +:+ String c x = b +:+ String c y → a = b ∧ x = y.
Proof.
  revert b. induction a as [|d a IH]; intros [|d' b] Ha Hb Heq.
  - by injection Heq.
  - injection Heq as <- _. cbn [lacks] in Hb. by rewrite Ascii.eqb_refl in Hb.
  - injection Heq as -> _. cbn [lacks] in Ha. by rewrite Ascii.eqb_refl in Ha.
  - injection Heq as -> Heq. cbn [lacks] in Ha, Hb.
    apply andb_true_iff in Ha as [_ Ha], Hb as [_ Hb].
    destruct (IH b Ha Hb Heq) as [-> ->]. done.
Qed.

Lemma filter_all {A} (P : A → Prop) `{∀ x, Decision (P x)} (l : list A) :
  Forall P l → filter P l = l.
Proof.
  induction 1 as [|x l Hx _ IH]; [done|].
  rewrite filter_cons. destruct (decide (P x)); [|done]. by rewrite IH.
Qed.

(** [map] with a throwing callback is all or nothing: one element on which
    the callback throws makes the whole traversal throw. *)
Lemma mapC_throws {A B} (f : A → Js.Completion B) (P : Js.JsError → Prop)
    (l : list A) (x : A) (e0 : Js.JsError) :
  (∀ y e, f y = Js.Throw e → P e) →
  x ∈ l → f x = Js.Throw e0 →
  ∃ e, Js.mapC f l = Js.Throw e ∧ P e.
Proof.
  intros HP Hin Hx. induction l as [|y l IH]; [by apply elem_of_nil in Hin|].
  cbn [Js.mapC]. destruct (f y) as [b|e] eqn:Hy; cbn [Js.bindC].
  - apply elem_of_cons in Hin as [->|Hin]; [congruence|].
    destruct (IH Hin) as (e & -> & He). eauto.
  - exists e. eauto.
Qed.

(** ** More on the API gateway client *)
Module ApiMore.
Import Js Browser Api ApiExpect.

Section ApiClient.
Context `{Runtime}.
Local Abbreviation JsVal := (JsVal number).
Local Abbreviation Request := (Request number).
Local Abbreviation Response := (Response number).
Local Abbreviation Server := (Server number).
Local Abbreviation World := (World number).
Variable env : option string.
Variable srv : Server.

Lemma credential_stored (w : World) t :
  localStorage w !! "firebase_token" = Some t → t ≠ "" → credential w = Some t.
Proof. unfold credential. intros -> ?. by destruct (decide (t = "")). Qed.

(** Every method is its header computation, one [fetch] of the expected
    request, and the treatment of what the [fetch] settles to. *)
Lemma perform_with_credential c (w : World) t :
  credential w = Some t →
  perform env srv c w =
    (outcomeOf c (srv (requestOf env c t)), sent (requestOf env c t) w).
Proof.
  intros Hc.
  pose proof (ApiSpec.getAuthHeaders_present w t Hc) as Hh.
  pose proof (ApiSpec.getAuthHeadersForFormData_present w t Hc) as Hf.
  destruct c; cbn [perform];
    match goal with
    | |- _ = (outcomeOf ?cc _, _) =>
        destruct (srv (requestOf env cc t)) as [r|e] eqn:Hsrv;
        unfold uploadVideo, getUserVideos, getVideo, globalSearch, searchInVideo,
          getVideoStreamUrl, deleteVideo, testAuth;
        first [erewrite (ApiSpec.bind_return _ _ _ _ _ Hh)
              | erewrite (ApiSpec.bind_return _ _ _ _ _ Hf)];
        unfold bind, fetch;
        match goal with
        | |- context [srv ?req] =>
            change (srv req) with (srv (requestOf env cc t)); rewrite Hsrv
        end
    end;
    cbn [outcomeOf]; try reflexivity;
    destruct (ok r); cbn [negb settles]; try reflexivity;
    unfold lift, bind, ret; destruct (json r); reflexivity.
Qed.

(** X1. An empty string in local storage counts as no credential: every
    method throws the missing-token error and nothing is sent. *)
Theorem empty_credential_counts_as_none (c : Call) (w : World) :
  localStorage w !! "firebase_token" = Some "" →
  perform env srv c w = (Throw noToken, w).
Proof.
  intros Hls. apply ApiSpec.perform_without_credential.
  unfold credential. by rewrite Hls.
Qed.

(** X2. When the [fetch] itself is rejected (no response at all), the method
    rejects with that very error after the one request; it neither retries
    nor wraps the error. *)
Theorem network_failure_is_passed_on (c : Call) (w : World) (t : string) (e : JsError) :
  localStorage w !! "firebase_token" = Some t → t ≠ "" →
  srv (requestOf env c t) = Rejected e →
  perform env srv c w = (Throw e, sent (requestOf env c t) w).
Proof.
  intros Hls Ht Hr.
  rewrite (perform_with_credential c w t (credential_stored w t Hls Ht)).
  by rewrite Hr.
Qed.

(** X3. Whatever the server does, a call leaves local storage and the console
    alone and sends at most one request; a request that is sent goes to a
    URL below the base URL and carries the stored credential as
    [Authorization: Bearer <token>]. *)
Theorem calls_send_at_most_one_authorized_request (c : Call) (w : World) :
  localStorage (perform env srv c w).2 = localStorage w ∧
  console (perform env srv c w).2 = console w ∧
  (requests (perform env srv c w).2 = requests w ∨
   ∃ t req, localStorage w !! "firebase_token" = Some t ∧
            requests (perform env srv c w).2 = (requests w ++ [req])%list ∧
            url req = API_BASE_URL env +:+ pathOf c ∧
            headers req !! "Authorization" = Some ("Bearer " +:+ t)).
Proof.
  destruct (credential w) as [t|] eqn:Hc.
  - rewrite (perform_with_credential c w t Hc). cbn [snd sent localStorage console requests].
    split; [done|]. split; [done|]. right. exists t, (requestOf env c t).
    split.
    { unfold credential in Hc.
      destruct (localStorage w !! "firebase_token") as [t'|]; [|done].
      destruct (decide (t' = "")); [done|]. by injection Hc as ->. }
    split; [done|]. split; [done|].
    destruct c; cbn [requestOf headers headersOf];
      first [apply lookup_singleton_eq
            | rewrite lookup_insert_eq; reflexivity].
  - rewrite (ApiSpec.perform_without_credential env srv c w Hc). auto.
Qed.

(** X4. On a response that is ok, [uploadVideo], [globalSearch],
    [searchInVideo], [getVideoStreamUrl] and [testAuth] settle exactly as
    [response.json()] does, also when that rejects because the body is not
    JSON; [deleteVideo] returns [true] without reading the body. *)
Theorem ok_response_is_handed_over (c : Call) (w : World) (t : string) (r : Response) :
  localStorage w !! "firebase_token" = Some t → t ≠ "" →
  srv (requestOf env c t) = Responded r →
  200 ≤ status r ≤ 299 →
  (passesThrough c = true →
   perform env srv c w = (json r, sent (requestOf env c t) w)) ∧
  (∀ videoId, c = CallDeleteVideo videoId →
   perform env srv c w = (Return (JBool true), sent (requestOf env c t) w)).
Proof.
  intros Hls Ht Hr Hs.
  assert (ok r = true) as Hok
    by (unfold ok; apply andb_true_iff; split; apply Z.leb_le; lia).
  rewrite (perform_with_credential c w t (credential_stored w t Hls Ht)).
  rewrite Hr. cbn [outcomeOf]. rewrite Hok.
  split; [by destruct c|]. by intros videoId ->.
Qed.

Lemma toCamelCase_throws_TypeError (v : JsVal) e :
  toCamelCase v = Throw e → ∃ msg, e = TypeError msg.
Proof. destruct v; cbn; intros [=]; eauto. Qed.

(** X5. [getUserVideos] is all or nothing: when the body of an ok response is
    not an array, or is an array with a [null] in it, the call throws a
    [TypeError] and no partial list is returned. *)
Theorem getUserVideos_rejects_malformed_list
    (w : World) (t : string) (r : Response) (body : JsVal) :
  localStorage w !! "firebase_token" = Some t → t ≠ "" →
  srv (requestOf env CallGetUserVideos t) = Responded r →
  200 ≤ status r ≤ 299 →
  json r = Return body →
  (∀ l, body = JArr l → JNull ∈ l) →
  ∃ msg, getUserVideos env srv w =
           (Throw (TypeError msg), sent (requestOf env CallGetUserVideos t) w).
Proof.
  intros Hls Ht Hr Hs Hj Hbad.
  assert (ok r = true) as Hok
    by (unfold ok; apply andb_true_iff; split; apply Z.leb_le; lia).
  change (getUserVideos env srv w) with (perform env srv CallGetUserVideos w).
  rewrite (perform_with_credential _ w t (credential_stored w t Hls Ht)).
  rewrite Hr. cbn [outcomeOf settles]. rewrite Hok, Hj. cbn [bindC].
  destruct body as [| | | | |l|]; try (eexists; reflexivity).
  cbn [mapVideos].
  destruct (mapC_throws toCamelCase (λ e, ∃ msg, e = TypeError msg) l JNull
              (TypeError ("Cannot read properties of undefined (reading '"
                          +:+ "indexing_status" +:+ "')")))
    as (e & -> & msg & ->); [apply toCamelCase_throws_TypeError|by apply Hbad|done|].
  by exists msg.
Qed.

(** X6. Mapping an object that was already mapped changes nothing: the
    snake_case fields are still there to be read, and they give the same
    four values. *)
Theorem toCamelCase_is_idempotent (o : gmap string JsVal) :
  ∃ o', toCamelCase (JObj o) = Return (JObj o') ∧
        toCamelCase (JObj o') = Return (JObj o').
Proof.
  destruct (ApiSpec.toCamelCase_object o) as (o' & Ho & Hi & Hc & Hm & Ht & Hrest).
  exists o'. split; [done|].
  unfold toCamelCase. cbn [getField bindC spread].
  rewrite (Hrest "indexing_status"), (Hrest "created_at"), (Hrest "minio_path")
    by (rewrite !not_elem_of_cons; repeat split;
        first [discriminate | apply not_elem_of_nil]).
  rewrite Ht. cbn [default from_option id]. unfold field in *.
  do 2 f_equal.
  rewrite (insert_id o' "indexingStatus") by done.
  rewrite (insert_id o' "createdAt") by done.
  rewrite (insert_id o' "minioPath") by done.
  by rewrite (insert_id o' "thumbnail").
Qed.

(** X7. [getVideo] answers an ok response carrying an object with that object
    extended as in [getUserVideos]; in particular what it returns is always
    an object. *)
Theorem getVideo_adds_camelCase_fields
    (videoId : string) (w : World) (t : string) (r : Response) (o : gmap string JsVal) :
  localStorage w !! "firebase_token" = Some t → t ≠ "" →
  srv (requestOf env (CallGetVideo videoId) t) = Responded r →
  200 ≤ status r ≤ 299 →
  json r = Return (JObj o) →
  ∃ o', getVideo env srv videoId w =
          (Return (JObj o'), sent (requestOf env (CallGetVideo videoId) t) w) ∧
        camelCased o o'.
Proof.
  intros Hls Ht Hr Hs Hj.
  assert (ok r = true) as Hok
    by (unfold ok; apply andb_true_iff; split; apply Z.leb_le; lia).
  destruct (ApiSpec.toCamelCase_object o) as (o' & Ho & Hc).
  exists o'. split; [|done].
  change (getVideo env srv videoId w) with (perform env srv (CallGetVideo videoId) w).
  rewrite (perform_with_credential _ w t (credential_stored w t Hls Ht)).
  rewrite Hr. cbn [outcomeOf settles]. rewrite Hok, Hj. cbn [bindC].
  by rewrite Ho.
Qed.

End ApiClient.


Import Scenario Scenario2.

Lemma empty_credential_counts_as_none_witness :
  localStorage emptyTokenWorld !! "firebase_token" = Some "" ∧
  perform None (always listResponse) CallTestAuth emptyTokenWorld
    = (Throw noToken, emptyTokenWorld).
Proof.
  split; [vm_compute; reflexivity|].
  apply (empty_credential_counts_as_none
           None (always listResponse) CallTestAuth emptyTokenWorld).
  vm_compute; reflexivity.
Defined.

Lemma network_failure_is_passed_on_witness :
  perform None unreachable (CallGetVideoStreamUrl "7") (signedInWorld "tok")
    = (Throw (TypeError "Failed to fetch"),
       sent (requestOf None (CallGetVideoStreamUrl "7") "tok") (signedInWorld "tok")).
Proof.
  apply (network_failure_is_passed_on
           None unreachable (CallGetVideoStreamUrl "7") (signedInWorld "tok") "tok");
    [vm_compute; reflexivity | discriminate | reflexivity].
Defined.

Lemma ok_response_is_handed_over_witness :
  (passesThrough (CallDeleteVideo "7") = true →
   perform None (always okEmpty) (CallDeleteVideo "7") (signedInWorld "tok")
     = (json okEmpty,
        sent (requestOf None (CallDeleteVideo "7") "tok") (signedInWorld "tok"))) ∧
  (∀ videoId, CallDeleteVideo "7" = CallDeleteVideo videoId →
   perform None (always okEmpty) (CallDeleteVideo "7") (signedInWorld "tok")
     = (Return (JBool true),
        sent (requestOf None (CallDeleteVideo "7") "tok") (signedInWorld "tok"))).
Proof.
  apply (ok_response_is_handed_over
           None (always okEmpty) (CallDeleteVideo "7") (signedInWorld "tok") "tok" okEmpty);
    [vm_compute; reflexivity | discriminate | reflexivity | simpl; lia].
Defined.

Lemma getUserVideos_rejects_malformed_list_witness :
  ∃ msg, getUserVideos None (always listWithNull) (signedInWorld "tok") =
           (Throw (TypeError msg),
            sent (requestOf None CallGetUserVideos "tok") (signedInWorld "tok")).
Proof.
  apply (getUserVideos_rejects_malformed_list
           None (always listWithNull) (signedInWorld "tok") "tok" listWithNull
           (JArr [JObj serverVideo; JNull]));
    [vm_compute; reflexivity | discriminate | reflexivity | simpl; lia | reflexivity |].
  intros l [= <-]. apply elem_of_cons. right. apply elem_of_cons. by left.
Defined.

Lemma getVideo_adds_camelCase_fields_witness :
  ∃ o', getVideo None (always videoResponse) "1" (signedInWorld "tok") =
          (Return (JObj o'),
           sent (requestOf None (CallGetVideo "1") "tok") (signedInWorld "tok")) ∧
        camelCased serverVideo o'.
Proof.
  apply (getVideo_adds_camelCase_fields
           None (always videoResponse) "1" (signedInWorld "tok") "tok" videoResponse
           serverVideo);
    [vm_compute; reflexivity | discriminate | reflexivity | simpl; lia | reflexivity].
Defined.

End ApiMore.

(** ** More on the session manager *)
Module AuthMore.
Import Js Browser Auth Guard Tokens Api ApiExpect.

Section Sessions.
Context {num : Type}.
Local Abbreviation State := (State num).
Implicit Types (s : State) (e : Event) (evs : list Event).

Lemma step_loading_stays_false e s s' :
  step e s = Some s' → loading (session s) = false → loading (session s') = false.
Proof.
  destruct e as [[u|]|u r| |r]; cbn.
  - by intros [= <-].
  - by intros [= <-].
  - destruct (decide _); [|discriminate]. intros [= <-]. by destruct r.
  - destruct (user (session s)); [|discriminate]. by intros [= <-].
  - destruct (refreshing s); [discriminate|]. intros [= <-]. by destruct r.
Qed.

(** X8. [loading] never goes back: once a callback has finished, no later
    event shows the spinner again, not even another sign-in. *)
Theorem loading_never_returns evs s s' :
  run evs s = Some s' → loading (session s) = false →
  loading (session s') = false.
Proof.
  revert s. induction evs as [|e evs IH]; intros s; cbn.
  - by intros [= <-].
  - destruct (step e s) as [s1|] eqn:He; [|discriminate].
    intros Hrun Hl. apply (IH s1 Hrun). by eapply step_loading_stays_false.
Qed.

Lemma step_pristine ls e s s' :
  (loading (session s) = true →
   session s = session (initial (num:=num) ls) ∧ world s = world (initial (num:=num) ls) ∧
   refreshing s = 0%nat) →
  step e s = Some s' →
  loading (session s') = true →
  session s' = session (initial (num:=num) ls) ∧ world s' = world (initial (num:=num) ls) ∧
  refreshing s' = 0%nat.
Proof.
  intros Hs.
  destruct e as [[u|]|u r| |r]; cbn.
  - intros [= <-]. cbn. auto.
  - intros [= <-]. discriminate.
  - destruct (decide _); [|discriminate]. intros [= <-]. by destruct r.
  - destruct (user (session s)) eqn:Hu; [|discriminate]. intros [= <-]. cbn.
    intros Hl. destruct (Hs Hl) as (Hss & _). rewrite Hss in Hu. discriminate.
  - destruct (refreshing s) eqn:Hr; [discriminate|]. intros [= <-].
    destruct r; cbn; intros Hl; destruct (Hs Hl) as (_ & _ & ?); congruence.
Qed.

(** X9. While [loading] is still true nothing has happened yet: there is no
    user and no token, local storage is as the page found it, nothing has
    been logged and no renewal is under way. *)
Theorem loading_means_untouched ls evs s :
  run evs (initial ls) = Some s →
  loading (session s) = true →
  user (session s) = None ∧ token (session s) = None ∧
  localStorage (world s) = ls ∧ console (world s) = [] ∧
  refreshing s = 0%nat.
Proof.
  intros Hrun Hl.
  cut (session s = session (initial (num:=num) ls) ∧ world s = world (initial (num:=num) ls) ∧
       refreshing s = 0%nat).
  { intros (-> & -> & ->). done. }
  revert Hl.
  cut (∀ s0, (loading (session s0) = true →
              session s0 = session (initial (num:=num) ls) ∧
              world s0 = world (initial (num:=num) ls) ∧ refreshing s0 = 0%nat) →
             run evs s0 = Some s →
             loading (session s) = true →
             session s = session (initial (num:=num) ls) ∧
             world s = world (initial (num:=num) ls) ∧ refreshing s = 0%nat).
  { intros Hgen. by apply (Hgen (initial ls)). }
  clear Hrun. induction evs as [|e evs IH]; intros s0 Hs0; cbn.
  - intros [= <-]. done.
  - destruct (step e s0) as [s1|] eqn:He; [|discriminate].
    apply IH. by apply (step_pristine ls e s0 s1).
Qed.

Lemma step_token_persisted e s s' :
  (loading (session s) = false →
   localStorage (world s) !! "firebase_token" = token (session s)) →
  step e s = Some s' →
  loading (session s') = false →
  localStorage (world s') !! "firebase_token" = token (session s').
Proof.
  intros Hs.
  destruct e as [[u|]|u r| |r]; cbn.
  - intros [= <-]. done.
  - intros [= <-] _. cbn. apply lookup_delete_eq.
  - destruct (decide _); [|discriminate]. intros [= <-] _.
    destruct r; cbn; [apply lookup_insert_eq|apply lookup_delete_eq].
  - destruct (user (session s)); [|discriminate]. by intros [= <-].
  - destruct (refreshing s); [discriminate|]. intros [= <-].
    destruct r; cbn; [intros _; apply lookup_insert_eq|done].
Qed.

Lemma run_token_persisted ls evs s :
  run evs (initial ls) = Some s →
  loading (session s) = false →
  localStorage (world s) !! "firebase_token" = token (session s).
Proof.
  cut (∀ s0, (loading (session s0) = false →
              localStorage (world s0) !! "firebase_token" = token (session s0)) →
             run evs s0 = Some s →
             loading (session s) = false →
             localStorage (world s) !! "firebase_token" = token (session s)).
  { intros Hgen. apply (Hgen (initial ls)). discriminate. }
  induction evs as [|e evs IH]; intros s0 Hs0; cbn.
  - by intros [= <-].
  - destruct (step e s0) as [s1|] eqn:He; [|discriminate].
    apply IH. by apply (step_token_persisted e s0 s1).
Qed.

(** X10. Once the first callback has finished, local storage and the session
    agree on the credential at every moment: [firebase_token] is stored
    exactly when the session has a token, and it is that token.  The API
    client, which reads local storage, therefore uses the token the session
    shows. *)
Theorem persisted_credential_is_session_token ls evs s :
  run evs (initial ls) = Some s →
  loading (session s) = false →
  localStorage (world s) !! "firebase_token" = token (session s).
Proof. apply run_token_persisted. Qed.

(** X11. Whenever the guard lets the protected page through, a credential is
    in local storage, and it is the token of the session. *)
Theorem guarded_content_has_credential ls evs s :
  run evs (initial ls) = Some s →
  AuthGuard (session s) = Children →
  ∃ t, token (session s) = Some t ∧
       localStorage (world s) !! "firebase_token" = Some t.
Proof.
  intros Hrun Hg. unfold AuthGuard in Hg.
  destruct (loading (session s)) eqn:Hl; [discriminate|].
  destruct (user (session s)) as [u|] eqn:Hu; [|discriminate].
  destruct (AuthSpec.run_userHasToken evs (initial ls) s) as [t Ht];
    [by intros [? [=]]|done|by rewrite Hu; eexists|].
  exists t. split; [done|].
  by rewrite (run_token_persisted ls evs s Hrun Hl).
Qed.

Lemma step_without_token e s s' :
  deliversToken e = false →
  localStorage (world s) !! "firebase_token" = None →
  step e s = Some s' →
  localStorage (world s') !! "firebase_token" = None.
Proof.
  intros He Hs.
  destruct e as [[u|]|u r| |r]; cbn.
  - by intros [= <-].
  - intros [= <-]. cbn. apply lookup_delete_eq.
  - destruct (decide _); [|discriminate]. intros [= <-].
    destruct r; [discriminate He|]. cbn. apply lookup_delete_eq.
  - destruct (user (session s)); [|discriminate]. by intros [= <-].
  - destruct (refreshing s); [discriminate|]. intros [= <-].
    destruct r; [discriminate He|]. done.
Qed.

Lemma run_without_token evs s s' :
  forallb (λ e, negb (deliversToken e)) evs = true →
  localStorage (world s) !! "firebase_token" = None →
  run evs s = Some s' →
  localStorage (world s') !! "firebase_token" = None.
Proof.
  revert s. induction evs as [|e evs IH]; intros s; cbn.
  - by intros _ ? [= <-].
  - intros [He Hevs]%andb_true_iff Hs. apply negb_true_iff in He.
    destruct (step e s) as [s1|] eqn:Hstep; [|discriminate].
    apply IH; [done|]. by apply (step_without_token e s s1).
Qed.

End Sessions.

Section WithApi.
Context `{Runtime}.
Local Abbreviation State := (State number).
Variable env : option string.
Variable srv : Server number.

(** X12. After the provider has reported a sign-out (for instance through a
    successful [logout]), and for as long as no token arrives from the
    provider, every API call fails with the missing-token error and sends
    nothing.  Failed renewals, new sign-in reports and callbacks that fail
    to obtain a token may happen in between; a token that does arrive, be
    it from a renewal started before the sign-out, ends the guarantee. *)
Theorem signed_out_calls_send_nothing (s s' : State) (evs : list Event) (c : Call) :
  forallb (λ e, negb (deliversToken e)) evs = true →
  run evs (logout SignOutResolved s).2 = Some s' →
  localStorage (world s') !! "firebase_token" = None ∧
  perform env srv c (world s') = (Throw noToken, world s').
Proof.
  intros Hevs Hrun.
  assert (localStorage (world s') !! "firebase_token" = None) as Hnone.
  { apply (run_without_token evs (logout SignOutResolved s).2 s'); [done| |done].
    cbn. apply lookup_delete_eq. }
  split; [done|].
  apply ApiSpec.perform_without_credential.
  unfold credential. by rewrite Hnone.
Qed.

(** X13. After a callback or a renewal has obtained the token [t], the next API
    call carries exactly that token. *)
Theorem fresh_token_is_used_by_calls (s s' : State) (u : User) (t : string) (c : Call) :
  step (IdTokenSettled u (Return t)) s = Some s' ∨
  step (RefreshSettled (Return t)) s = Some s' →
  t ≠ "" →
  perform env srv c (world s') =
    (outcomeOf c (srv (requestOf env c t)), sent (requestOf env c t) (world s')).
Proof.
  intros Hstep Ht. apply ApiMore.perform_with_credential.
  apply ApiMore.credential_stored; [|done].
  destruct Hstep as [Hstep|Hstep]; cbn in Hstep.
  - destruct (decide _); [|discriminate]. injection Hstep as <-.
    cbn. apply lookup_insert_eq.
  - destruct (refreshing s); [discriminate|]. injection Hstep as <-.
    cbn. apply lookup_insert_eq.
Qed.

End WithApi.

Import Scenario Scenario2.

Lemma loading_never_returns_witness :
  ∃ s', run [AuthStateChanged (Some alice); RefreshTimerFired]
            signedIn = Some s' ∧
        loading (session s') = false.
Proof.
  eexists. split; [reflexivity|].
  apply (loading_never_returns
           [AuthStateChanged (Some alice); RefreshTimerFired] signedIn);
    reflexivity.
Defined.

Lemma loading_means_untouched_witness :
  ∃ s, run [AuthStateChanged (Some alice)]
           (initial (num:=number) {[ "firebase_token" := "old" ]}) = Some s ∧
       user (session s) = None ∧ token (session s) = None ∧
       localStorage (world s) = {[ "firebase_token" := "old" ]} ∧
       console (world s) = [] ∧ refreshing s = 0%nat.
Proof.
  eexists. split; [reflexivity|].
  apply (loading_means_untouched (num:=number) {[ "firebase_token" := "old" ]}
           [AuthStateChanged (Some alice)]); reflexivity.
Defined.

Lemma persisted_credential_is_session_token_witness :
  ∃ s, run staleRenewalTrace (initial (num:=number) ∅) = Some s ∧
       localStorage (world s) !! "firebase_token" = token (session s).
Proof.
  eexists. split; [reflexivity|].
  apply (persisted_credential_is_session_token (num:=number) ∅ staleRenewalTrace);
    reflexivity.
Defined.

Lemma guarded_content_has_credential_witness :
  ∃ s, run [AuthStateChanged (Some alice); IdTokenSettled alice (Return "t1")]
           (initial (num:=number) ∅) = Some s ∧
       ∃ t, token (session s) = Some t ∧
            localStorage (world s) !! "firebase_token" = Some t.
Proof.
  eexists. split; [reflexivity|].
  apply (guarded_content_has_credential (num:=number) ∅
           [AuthStateChanged (Some alice); IdTokenSettled alice (Return "t1")]);
    reflexivity.
Defined.

Lemma signed_out_calls_send_nothing_witness :
  ∃ s', run afterSignOut (logout SignOutResolved renewing).2 = Some s' ∧
        localStorage (world s') !! "firebase_token" = None ∧
        perform None (always notFound) CallTestAuth (world s') =
          (Throw noToken, world s').
Proof.
  eexists. split; [reflexivity|].
  apply (signed_out_calls_send_nothing None (always notFound)
           renewing _ afterSignOut CallTestAuth); reflexivity.
Defined.

Lemma fresh_token_is_used_by_calls_witness :
  perform None (always notFound) CallTestAuth (world (onRefreshed (Return "t2") signedIn)) =
    (outcomeOf CallTestAuth (always notFound (requestOf None CallTestAuth "t2")),
     sent (requestOf None CallTestAuth "t2") (world (onRefreshed (Return "t2") signedIn))).
Proof.
  apply (fresh_token_is_used_by_calls None (always notFound)
           renewing (onRefreshed (Return "t2") signedIn) alice "t2" CallTestAuth);
    [right; reflexivity | discriminate].
Defined.

End AuthMore.

(** ** More on the video library *)
Module LibraryMore.
Import Js Browser Video Api ApiExpect Library Grid.

Section VideoLibrary.
Context `{Runtime}.
Local Abbreviation Response := (Response number).
Local Abbreviation Server := (Server number).
Local Abbreviation World := (World number).
Variable env : option string.
Variable srv : Server.

Lemma deleteVideo_ok (w : World) t videoId (r : Response) :
  localStorage w !! "firebase_token" = Some t → t ≠ "" →
  srv (requestOf env (CallDeleteVideo videoId) t) = Responded r →
  200 ≤ status r ≤ 299 →
  deleteVideo env srv videoId w =
    (Return (JBool true), sent (requestOf env (CallDeleteVideo videoId) t) w).
Proof.
  intros Hls Ht Hr Hs.
  assert (ok r = true) as Hok
    by (unfold ok; apply andb_true_iff; split; apply Z.leb_le; lia).
  change (deleteVideo env srv videoId w)
    with (perform env srv (CallDeleteVideo videoId) w).
  rewrite (ApiMore.perform_with_credential env srv _ w t
             (ApiMore.credential_stored w t Hls Ht)).
  rewrite Hr. cbn [outcomeOf settles]. by rewrite Hok.
Qed.

Lemma handleDelete_accepted videoId (c : State) (w : World) t (r : Response) :
  localStorage w !! "firebase_token" = Some t → t ≠ "" →
  srv (requestOf env (CallDeleteVideo videoId) t) = Responded r →
  200 ≤ status r ≤ 299 →
  videos (handleDelete env srv videoId c w).1 =
    filter (λ v, id v ≠ videoId) (videos c) ∧
  deleteError (handleDelete env srv videoId c w).1 = "" ∧
  deletingId (handleDelete env srv videoId c w).1 = None.
Proof.
  intros Hls Ht Hr Hs. unfold handleDelete.
  rewrite (deleteVideo_ok _ t videoId r) by done. done.
Qed.

(** X15. [handleDelete] works on [videos] only.  While search results are on
    display the grid therefore shows the same entries after a delete as
    before, the deleted one included, whether the server accepted the
    delete or not. *)
Theorem delete_does_not_touch_search_results
    (videoId : string) (c : State) (w : World) :
  searchResults c ≠ [] →
  searchResults (handleDelete env srv videoId c w).1 = searchResults c ∧
  displayed (handleDelete env srv videoId c w).1 = displayed c.
Proof.
  intros Hne.
  assert (searchResults (handleDelete env srv videoId c w).1 = searchResults c) as Hs.
  { unfold handleDelete. by destruct (deleteVideo _ _ _ _) as [[?|?] ?]. }
  split; [done|]. unfold displayed. rewrite Hs.
  by destruct (searchResults c).
Qed.

(** X16. Adding an uploaded video and then deleting it again gives back the
    list as it was, provided the id taken from the clock is not the id of
    a video already listed and the server accepts the delete. *)
Theorem upload_then_delete_restores_the_list
    (now : number) (nv : NewVideo) (c : State) (w : World) (t : string) (r : Response) :
  localStorage w !! "firebase_token" = Some t → t ≠ "" →
  srv (requestOf env (CallDeleteVideo (Number_toString now)) t) = Responded r →
  200 ≤ status r ≤ 299 →
  Forall (λ v, id v ≠ Number_toString now) (videos c) →
  videos (handleDelete env srv (Number_toString now)
            (handleVideoUpload now nv c) w).1 = videos c.
Proof.
  intros Hls Ht Hr Hs Hfresh.
  destruct (handleDelete_accepted (Number_toString now)
              (handleVideoUpload now nv c) w t r Hls Ht Hr Hs) as (-> & _).
  cbn [handleVideoUpload setVideos videos]. rewrite filter_cons.
  destruct (decide _) as [Hne|_]; [by cbn in Hne|].
  by apply filter_all.
Qed.

End VideoLibrary.

Import Scenario Scenario2.

Lemma delete_does_not_touch_search_results_witness :
  searchResults (handleDelete None (always okEmpty) "7" searching (signedInWorld "tok")).1
    = searchResults searching ∧
  displayed (handleDelete None (always okEmpty) "7" searching (signedInWorld "tok")).1
    = displayed searching.
Proof.
  apply (delete_does_not_touch_search_results
           None (always okEmpty) "7" searching (signedInWorld "tok")).
  discriminate.
Defined.

Lemma upload_then_delete_restores_the_list_witness :
  videos (handleDelete None (always okEmpty) (Number_toString (numberOfZ 1715000000000))
            (handleVideoUpload (numberOfZ 1715000000000) justUploaded twoVideos)
            (signedInWorld "tok")).1 = videos twoVideos.
Proof.
  apply (upload_then_delete_restores_the_list
           None (always okEmpty) (numberOfZ 1715000000000) justUploaded twoVideos
           (signedInWorld "tok") "tok" okEmpty);
    [vm_compute; reflexivity | discriminate | reflexivity | simpl; lia |].
  repeat constructor; vm_compute; discriminate.
Defined.

End LibraryMore.

(** ** More on the upload form *)
Module UploadMore.
Import Js Browser Video Api ApiExpect Upload DropZone.

Lemma isExtension_with_dot (b ext : string) :
  isExtension (b +:+ String "." ext) = false.
Proof.
  induction b as [|c b IH].
  - change ("" +:+ String "." ext) with (String "." ext). cbn [isExtension].
    by rewrite Ascii.eqb_refl, orb_true_r.
  - change (String c b +:+ String "." ext) with (String c (b +:+ String "." ext)).
    cbn [isExtension]. rewrite IH.
    destruct b; (destruct (negb _); reflexivity).
Qed.

Lemma stripExtension_last (base ext : string) :
  isExtension ext = true →
  stripExtension (base +:+ "." +:+ ext) = base.
Proof.
  intros Hext. induction base as [|c b IH].
  - change ("" +:+ "." +:+ ext) with (String "." ext). cbn [stripExtension].
    by rewrite Ascii.eqb_refl, Hext.
  - change (String c b +:+ "." +:+ ext) with (String c (b +:+ "." +:+ ext)).
    cbn [stripExtension]. rewrite IH.
    change (b +:+ "." +:+ ext) with (b +:+ String "." ext).
    by rewrite isExtension_with_dot, andb_false_r.
Qed.

Lemma stripExtension_without_dot (name : string) :
  lacks "." name = true → stripExtension name = name.
Proof.
  induction name as [|c r IH]; [done|].
  cbn [lacks stripExtension]. intros [Hc Hr]%andb_true_iff.
  apply negb_true_iff in Hc. rewrite Hc. cbn [andb]. by rewrite IH.
Qed.

(** X17. While no title has been typed, dropping a file whose name ends in a
    dot and an extension makes that file the chosen one and proposes the
    name without exactly that extension as the title: [clip] for
    [clip.mp4], [a.tar] for [a.tar.gz].  Further files of the same drop are
    ignored and the rest of the form is untouched. *)
Theorem onDrop_proposes_name_without_extension
    (c : State) (f : File) (rest : list File) (base ext : string) :
  title c = "" → fileName f = base +:+ "." +:+ ext → isExtension ext = true →
  onDrop (f :: rest) c =
    {| file := Some f; title := base;
       uploading := uploading c; uploadProgress := uploadProgress c |}.
Proof.
  intros Ht Hn Hext. cbn [onDrop]. rewrite Ht, Hn.
  destruct (decide ("" = "")); [|done].
  by rewrite (stripExtension_last base ext Hext).
Qed.

(** X18. While no title has been typed, dropping a file whose name has no dot
    makes that file the chosen one and proposes its whole name as the
    title. *)
Theorem onDrop_proposes_whole_name_without_dot
    (c : State) (f : File) (rest : list File) :
  title c = "" → lacks "." (fileName f) = true →
  onDrop (f :: rest) c =
    {| file := Some f; title := fileName f;
       uploading := uploading c; uploadProgress := uploadProgress c |}.
Proof.
  intros Ht Hn. cbn [onDrop]. rewrite Ht.
  destruct (decide ("" = "")); [|done].
  by rewrite (stripExtension_without_dot (fileName f) Hn).
Qed.

Section VideoUpload.
Context `{Runtime}.
Local Abbreviation JsVal := (JsVal number).
Local Abbreviation Response := (Response number).
Local Abbreviation Server := (Server number).
Local Abbreviation World := (World number).
Variable env : option string.
Variable srv : Server.

Lemma uploadVideo_settles (w : World) t f title :
  localStorage w !! "firebase_token" = Some t → t ≠ "" →
  uploadVideo env srv f title w =
    (outcomeOf (CallUploadVideo f title) (srv (requestOf env (CallUploadVideo f title) t)),
     sent (requestOf env (CallUploadVideo f title) t) w).
Proof.
  intros Hls Ht.
  change (uploadVideo env srv f title w)
    with (perform env srv (CallUploadVideo f title) w).
  apply ApiMore.perform_with_credential. by apply ApiMore.credential_stored.
Qed.

(** X19. When the server refuses the upload, [onUpload] is not called, the
    chosen file and the title stay in the form, [uploading] is false again,
    and the failure goes to the console only. *)
Theorem refused_upload_keeps_the_form
    (isoNow : string) (c : State) (w : World) (f : File) (t : string) (r : Response) :
  file c = Some f → title c ≠ "" →
  localStorage w !! "firebase_token" = Some t → t ≠ "" →
  srv (requestOf env (CallUploadVideo f (title c)) t) = Responded r →
  ¬ (200 ≤ status r ≤ 299) →
  handleUpload env srv isoNow c w =
    ({| file := Some f; title := title c; uploading := false; uploadProgress := 0 |},
     [],
     consoleAdd (ConsoleError "Upload failed:" (httpError "Upload failed" r))
       (sent (requestOf env (CallUploadVideo f (title c)) t) w)).
Proof.
  intros Hf Htitle Hls Ht Hr Hs. apply ApiSpec.not_2xx_not_ok in Hs.
  unfold handleUpload. rewrite Hf.
  destruct (decide (title c = "")); [done|].
  unfold bind. rewrite (uploadVideo_settles w t f (title c) Hls Ht), Hr.
  cbn [outcomeOf]. by rewrite Hs.
Qed.

(** X20. When the answer to an upload is an object without [video_id], the
    upload still counts as done: [onUpload] is called with an entry whose
    [minioPath] is [/videos/undefined]. *)
Theorem upload_without_video_id
    (isoNow : string) (c : State) (w : World) (f : File) (t : string)
    (r : Response) (o : gmap string JsVal) :
  file c = Some f → title c ≠ "" →
  localStorage w !! "firebase_token" = Some t → t ≠ "" →
  srv (requestOf env (CallUploadVideo f (title c)) t) = Responded r →
  200 ≤ status r ≤ 299 →
  json r = Return (JObj o) → o !! "video_id" = None →
  ∃ v, handleUpload env srv isoNow c w =
         ({| file := None; title := ""; uploading := false; uploadProgress := 0 |},
          [v], sent (requestOf env (CallUploadVideo f (title c)) t) w) ∧
       newMinioPath v = "/videos/undefined".
Proof.
  intros Hf Htitle Hls Ht Hr Hs Hj Hid.
  assert (ok r = true) as Hok
    by (unfold ok; apply andb_true_iff; split; apply Z.leb_le; lia).
  eexists. split.
  - unfold handleUpload. rewrite Hf.
    destruct (decide (title c = "")); [done|].
    unfold bind. rewrite (uploadVideo_settles w t f (title c) Hls Ht), Hr.
    cbn [outcomeOf settles]. rewrite Hok, Hj.
    unfold lift, newVideo. cbn [getField bindC]. rewrite Hid. reflexivity.
  - reflexivity.
Qed.

(** X21. Dropping a file whose name is nothing but an extension, such as
    [.mp4], leaves the title empty; pressing upload then does nothing at
    all, and no request is sent, until a title is typed. *)
Theorem dotfile_cannot_be_uploaded_untitled
    (isoNow : string) (c : State) (w : World) (f : File) (rest : list File) (ext : string) :
  title c = "" → fileName f = String "." ext → isExtension ext = true →
  file (onDrop (f :: rest) c) = Some f ∧
  title (onDrop (f :: rest) c) = "" ∧
  handleUpload env srv isoNow (onDrop (f :: rest) c) w =
    (onDrop (f :: rest) c, [], w).
Proof.
  intros Ht Hn Hext.
  assert (title (onDrop (f :: rest) c) = "") as Htitle.
  { cbn [onDrop title]. rewrite Ht. destruct (decide _); [|done].
    rewrite Hn. cbn [stripExtension]. by rewrite Ascii.eqb_refl, Hext. }
  split; [done|]. split; [done|].
  apply UploadSpec.handleUpload_needs_file_and_title. by right.
Qed.

End VideoUpload.

Import Scenario Scenario2.

Lemma onDrop_proposes_name_without_extension_witness :
  onDrop [archive] emptyForm =
    {| file := Some archive; title := "a.tar";
       uploading := false; uploadProgress := 0 |}.
Proof.
  apply (onDrop_proposes_name_without_extension emptyForm archive [] "a.tar" "gz");
    reflexivity.
Defined.

Lemma onDrop_proposes_whole_name_without_dot_witness :
  onDrop [holiday] emptyForm =
    {| file := Some holiday; title := "holiday 2024";
       uploading := false; uploadProgress := 0 |}.
Proof.
  apply (onDrop_proposes_whole_name_without_dot emptyForm holiday []); reflexivity.
Defined.

(** Evaluated: only the last extension goes, a trailing dot stays, and a
    slash after the last dot prevents the cut. *)
Example stripExtension_cases :
  stripExtension "a.tar.gz" = "a.tar" ∧ stripExtension "clip." = "clip." ∧
  stripExtension "v1.0/clip" = "v1.0/clip" ∧ stripExtension ".mp4" = "".
Proof. repeat split. Qed.

Lemma refused_upload_keeps_the_form_witness :
  handleUpload None (always notFound) "2024-05-06T10:00:00.000Z" uploadForm
      (signedInWorld "tok") =
    ({| file := Some clip; title := title uploadForm; uploading := false;
        uploadProgress := 0 |},
     [],
     consoleAdd (ConsoleError "Upload failed:" (httpError "Upload failed" notFound))
       (sent (requestOf None (CallUploadVideo clip (title uploadForm)) "tok")
          (signedInWorld "tok"))).
Proof.
  apply (refused_upload_keeps_the_form
           None (always notFound) "2024-05-06T10:00:00.000Z" uploadForm
           (signedInWorld "tok") clip "tok" notFound);
    [reflexivity | discriminate | vm_compute; reflexivity | discriminate
    | reflexivity | simpl; lia].
Defined.

Lemma upload_without_video_id_witness :
  ∃ v, handleUpload None (always uploadWithoutId) "2024-05-06T10:00:00.000Z"
         uploadForm (signedInWorld "tok") =
         ({| file := None; title := ""; uploading := false; uploadProgress := 0 |},
          [v], sent (requestOf None (CallUploadVideo clip (title uploadForm)) "tok")
                 (signedInWorld "tok")) ∧
       newMinioPath v = "/videos/undefined".
Proof.
  apply (upload_without_video_id
           None (always uploadWithoutId) "2024-05-06T10:00:00.000Z" uploadForm
           (signedInWorld "tok") clip "tok" uploadWithoutId ∅);
    [reflexivity | discriminate | vm_compute; reflexivity | discriminate
    | reflexivity | simpl; lia | reflexivity | reflexivity].
Defined.

Lemma dotfile_cannot_be_uploaded_untitled_witness :
  file (onDrop [dotfile] emptyForm) = Some dotfile ∧
  title (onDrop [dotfile] emptyForm) = "" ∧
  handleUpload None (always uploadResponse) "2024-05-06T10:00:00.000Z"
    (onDrop [dotfile] emptyForm) (signedInWorld "tok") =
    (onDrop [dotfile] emptyForm, [], signedInWorld "tok").
Proof.
  apply (dotfile_cannot_be_uploaded_untitled
           None (always uploadResponse) "2024-05-06T10:00:00.000Z" emptyForm
           (signedInWorld "tok") dotfile [] "mp4"); reflexivity.
Defined.

End UploadMore.

(** ** More on the global search *)
Module GlobalSearchMore.
Import Js Browser Video Api ApiExpect GlobalSearch.

Section Handlers.
Context `{Runtime}.
Local Abbreviation JsVal := (JsVal number).
Local Abbreviation Response := (Response number).
Local Abbreviation Server := (Server number).
Local Abbreviation World := (World number).
Local Abbreviation State := (State number).
Variable env : option string.
Variable srv : Server.

(** X22. The search is all or nothing: when the hits of an ok response contain
    a [null], no result is shown at all, the results of the previous search
    stay, [onSearch] is not called, and the failure goes to the console
    only. *)
Theorem one_bad_hit_hides_all_results
    (isoNow : string) (c : State) (w : World) (t : string) (r : Response)
    (hits : list JsVal) :
  String_trim (query c) ≠ "" →
  localStorage w !! "firebase_token" = Some t → t ≠ "" →
  srv (requestOf env (CallGlobalSearch (query c) (Some (numberOfZ 5))) t) = Responded r →
  200 ≤ status r ≤ 299 →
  json r = Return (JArr hits) → JNull ∈ hits →
  ∃ err, handleSearch env srv isoNow c w =
    ({| query := query c; isSearching := false; searchResults := searchResults c |},
     {| onSearch := []; onSearchStateChange := [true; false] |},
     consoleAdd (ConsoleError "Search failed:" err)
       (sent (requestOf env (CallGlobalSearch (query c) (Some (numberOfZ 5))) t) w)).
Proof.
  intros Hq Hls Ht Hr Hs Hj Hnull.
  assert (ok r = true) as Hok
    by (unfold ok; apply andb_true_iff; split; apply Z.leb_le; lia).
  destruct (mapC_throws (toSearchResult isoNow) (λ _, True) hits JNull
              (TypeError ("Cannot read properties of undefined (reading '"
                          +:+ "video_id" +:+ "')")))
    as (err & Herr & _); [done|done|done|].
  exists err. unfold handleSearch.
  destruct (decide (String_trim (query c) = "")); [done|].
  unfold bind.
  change (globalSearch env srv (query c) (Some (numberOfZ 5)) w)
    with (perform env srv (CallGlobalSearch (query c) (Some (numberOfZ 5))) w).
  rewrite (ApiMore.perform_with_credential env srv _ w t
             (ApiMore.credential_stored w t Hls Ht)).
  rewrite Hr. cbn [outcomeOf settles]. rewrite Hok, Hj.
  unfold lift. cbn [toSearchResults]. by rewrite Herr.
Qed.

End Handlers.

Import Scenario Scenario2.

Lemma one_bad_hit_hides_all_results_witness :
  ∃ err, handleSearch None (always hitsWithNull) "2024-05-06T10:00:00.000Z"
           searchForm (signedInWorld "tok") =
    ({| query := query searchForm; isSearching := false;
        searchResults := searchResults searchForm |},
     {| onSearch := []; onSearchStateChange := [true; false] |},
     consoleAdd (ConsoleError "Search failed:" err)
       (sent (requestOf None (CallGlobalSearch (query searchForm) (Some (numberOfZ 5))) "tok")
          (signedInWorld "tok"))).
Proof.
  apply (one_bad_hit_hides_all_results
           None (always hitsWithNull) "2024-05-06T10:00:00.000Z" searchForm
           (signedInWorld "tok") "tok" hitsWithNull (hits ++ [JNull]));
    [vm_compute; discriminate | vm_compute; reflexivity | discriminate
    | reflexivity | simpl; lia | reflexivity |].
  apply elem_of_app. right. apply elem_of_cons. by left.
Defined.

End GlobalSearchMore.

(** ** The video player *)
Module PlayerMore.
Import Js Browser Api ApiExpect Player.

Lemma seconds_field (r : Z) :
  0 ≤ r < 60 → String.length (padStart 2 "0" (pretty r)) = 2%nat.
Proof.
  intros Hr.
  assert (forallb (λ r, Nat.eqb (String.length (padStart 2 "0" (pretty r))) 2)
            (seqZ 0 60) = true) as Hall by (vm_compute; reflexivity).
  rewrite forallb_forall in Hall. apply Nat.eqb_eq, Hall.
  apply list_elem_of_In, elem_of_seqZ. lia.
Qed.

Lemma seconds_field_inj (r r' : Z) :
  0 ≤ r < 60 → 0 ≤ r' < 60 →
  padStart 2 "0" (pretty r) = padStart 2 "0" (pretty r') → r = r'.
Proof.
  intros Hr Hr' Heq.
  assert (forallb (λ a, forallb (λ b,
            implb (String.eqb (padStart 2 "0" (pretty a)) (padStart 2 "0" (pretty b)))
                  (a =? b)) (seqZ 0 60)) (seqZ 0 60) = true)
    as Hall by (vm_compute; reflexivity).
  rewrite forallb_forall in Hall.
  assert (In r (seqZ 0 60)) as Hin by (apply list_elem_of_In, elem_of_seqZ; lia).
  specialize (Hall r Hin). rewrite forallb_forall in Hall.
  assert (In r' (seqZ 0 60)) as Hin' by (apply list_elem_of_In, elem_of_seqZ; lia).
  specialize (Hall r' Hin'). rewrite Heq, String.eqb_refl in Hall.
  by apply Z.eqb_eq.
Qed.

(** X23. For a whole, non-negative number of seconds [formatTime] prints the
    minutes, a colon and exactly two characters for the seconds, and the
    time can be read back from the text: different times print
    differently. *)
Theorem formatTime_reads_back (a b : Z) :
  0 ≤ a < 2 ^ 53 → 0 ≤ b < 2 ^ 53 →
  (∃ d, formatTime a = pretty (a / 60) +:+ ":" +:+ d ∧ String.length d = 2%nat) ∧
  (formatTime a = formatTime b → a = b).
Proof.
  intros Ha Hb.
  assert (0 ≤ Z.rem a 60 < 60) as Hra by (apply Z.rem_bound_pos; lia).
  assert (0 ≤ Z.rem b 60 < 60) as Hrb by (apply Z.rem_bound_pos; lia).
  split.
  - eexists. split; [reflexivity|]. by apply seconds_field.
  - unfold formatTime. intros Heq.
    change (pretty (a / 60) +:+ String ":" (padStart 2 "0" (pretty (Z.rem a 60))) =
            pretty (b / 60) +:+ String ":" (padStart 2 "0" (pretty (Z.rem b 60)))) in Heq.
    apply split_at_first in Heq as [Hm Hs];
      [|apply lacks_pretty_Z; [cbn; lia|discriminate]..].
    apply (inj pretty) in Hm. apply seconds_field_inj in Hs; [|done..].
    rewrite !Z.rem_mod_nonneg in Hs by lia.
    rewrite (Z.div_mod a 60), (Z.div_mod b 60) by lia. lia.
Qed.

Section VideoPlayer.
Context `{Runtime}.
Local Abbreviation JsVal := (JsVal number).
Local Abbreviation Response := (Response number).
Local Abbreviation Server := (Server number).
Local Abbreviation World := (World number).
Local Abbreviation State := (State number).
Variable env : option string.
Variable srv : Server.

Lemma getVideo_settles (w : World) t videoId :
  localStorage w !! "firebase_token" = Some t → t ≠ "" →
  getVideo env srv videoId w =
    (outcomeOf (CallGetVideo videoId) (srv (requestOf env (CallGetVideo videoId) t)),
     sent (requestOf env (CallGetVideo videoId) t) w).
Proof.
  intros Hls Ht.
  change (getVideo env srv videoId w) with (perform env srv (CallGetVideo videoId) w).
  apply ApiMore.perform_with_credential. by apply ApiMore.credential_stored.
Qed.

(** X24. When the video cannot be fetched, [loadVideo] leaves the [video] cell
    as it was (empty on a first load, so the page says the video was not
    found; the previous video when the id in the address changed), stops
    the spinner and writes the failure to the console only. *)
Theorem failed_load_keeps_previous_video
    (videoId : string) (c : State) (w : World) (t : string) (r : Response) :
  localStorage w !! "firebase_token" = Some t → t ≠ "" →
  srv (requestOf env (CallGetVideo videoId) t) = Responded r →
  ¬ (200 ≤ status r ≤ 299) →
  loadVideo env srv videoId c w =
    ({| video := video c; loading := false;
        searchQuery := searchQuery c; isSearching := isSearching c |},
     consoleAdd (ConsoleError "Failed to load video:"
                   (httpError "Failed to fetch video" r))
       (sent (requestOf env (CallGetVideo videoId) t) w)).
Proof.
  intros Hls Ht Hr Hs. apply ApiSpec.not_2xx_not_ok in Hs.
  unfold loadVideo. rewrite (getVideo_settles w t videoId Hls Ht), Hr.
  cbn [outcomeOf]. by rewrite Hs.
Qed.

(** X25. After a successful load the search form is enabled exactly when the
    server's object has [indexing_status] equal to the string
    ["COMPLETED"]; a missing field, another status or a value of another
    type keeps it disabled, and so does a server that sends only the
    camelCase [indexingStatus]. *)
Theorem search_enabled_iff_completed
    (videoId : string) (c : State) (w : World) (t : string) (r : Response)
    (o : gmap string JsVal) :
  localStorage w !! "firebase_token" = Some t → t ≠ "" →
  srv (requestOf env (CallGetVideo videoId) t) = Responded r →
  200 ≤ status r ≤ 299 →
  json r = Return (JObj o) →
  ∃ v, video (loadVideo env srv videoId c w).1 = Some v ∧
       loading (loadVideo env srv videoId c w).1 = false ∧
       searchDisabled v =
         Return (negb (isString "COMPLETED" (field o "indexing_status"))).
Proof.
  intros Hls Ht Hr Hs Hj.
  assert (ok r = true) as Hok
    by (unfold ok; apply andb_true_iff; split; apply Z.leb_le; lia).
  destruct (ApiSpec.toCamelCase_object o) as (o' & Ho & Hi & _).
  exists (JObj o'). unfold loadVideo.
  rewrite (getVideo_settles w t videoId Hls Ht), Hr.
  cbn [outcomeOf settles]. rewrite Hok, Hj. cbn [bindC]. rewrite Ho.
  split; [done|]. split; [done|].
  unfold searchDisabled. cbn [getField bindC]. by rewrite Hi.
Qed.

End VideoPlayer.

Import Scenario Scenario2.

Lemma formatTime_reads_back_witness :
  (∃ d, formatTime 95 = pretty (95 / 60) +:+ ":" +:+ d ∧ String.length d = 2%nat) ∧
  (formatTime 95 = formatTime 3600 → 95 = 3600).
Proof.
  apply (formatTime_reads_back 95 3600); lia.
Defined.

(** Evaluated, with the behaviour for a negative time. *)
Example formatTime_cases :
  formatTime 95 = "1:35" ∧ formatTime 5 = "0:05" ∧ formatTime 3600 = "60:00" ∧
  formatTime (-5) = "-1:-5".
Proof. repeat split; vm_compute; reflexivity. Qed.

Lemma failed_load_keeps_previous_video_witness :
  loadVideo None (always notFound) "7" playerStart (signedInWorld "tok") =
    ({| video := video playerStart; loading := false;
        searchQuery := searchQuery playerStart; isSearching := isSearching playerStart |},
     consoleAdd (ConsoleError "Failed to load video:"
                   (httpError "Failed to fetch video" notFound))
       (sent (requestOf None (CallGetVideo "7") "tok") (signedInWorld "tok"))).
Proof.
  apply (failed_load_keeps_previous_video
           None (always notFound) "7" playerStart (signedInWorld "tok") "tok" notFound);
    [vm_compute; reflexivity | discriminate | reflexivity | simpl; lia].
Defined.

Lemma search_enabled_iff_completed_witness :
  ∃ v, video (loadVideo None (always videoResponse) "1" playerStart (signedInWorld "tok")).1
         = Some v ∧
       loading (loadVideo None (always videoResponse) "1" playerStart (signedInWorld "tok")).1
         = false ∧
       searchDisabled v =
         Return (negb (isString "COMPLETED" (field serverVideo "indexing_status"))).
Proof.
  apply (search_enabled_iff_completed
           None (always videoResponse) "1" playerStart (signedInWorld "tok") "tok"
           videoResponse serverVideo);
    [vm_compute; reflexivity | discriminate | reflexivity | simpl; lia | reflexivity].
Defined.

End PlayerMore.
